(** * Asset names of spx-gui: validation, normalisation, unique-name resolution

    A shallow embedding of [spx-gui/src/models/common/asset-name.ts].

    JavaScript strings are sequences of UTF-16 code units, and every
    operation the module uses ([length], [===], regular expressions without
    the [u] flag, [slice], [split]) works on code units.  A string is
    therefore a list of code units, a code unit a number in [N]. *)

From Stdlib Require Import Ascii String.
From Stdlib Require Import List NArith ZArith Arith Bool Lia.
From Stdlib Require DecimalN DecimalPos.
From Equations Require Import Equations.
From Equations.Prop Require Import Logic.
Import ListNotations.

Set Implicit Arguments.

(** ** JavaScript strings *)

Module Js.

Local Open Scope N_scope.

Definition char := N.
Definition str := list char.

(** An ASCII literal as a JavaScript string. *)
Definition lit (s : string) : str := map N_of_ascii (list_ascii_of_string s).

(** [a === b] on strings. *)
Fixpoint eqb (a b : str) : bool :=
  match a, b with
  | [], [] => true
  | x :: a', y :: b' => N.eqb x y && eqb a' b'
  | _, _ => false
  end.

(** [xs.includes(x)] on an array of strings. *)
Definition includes (xs : list str) (x : str) : bool := existsb (fun y => eqb y x) xs.

(** [xs.find(p)] on an array. *)
Definition find {A} (p : A -> bool) (xs : list A) : option A := List.find p xs.

(** Truthiness of the result of [find]: an object is truthy, [undefined]
    is not. *)
Definition truthy {A} (o : option A) : bool :=
  match o with Some _ => true | None => false end.

(** Number-to-string conversion of a non-negative integer, as done by
    [base + i]. *)
Fixpoint digits (u : Decimal.uint) : str :=
  match u with
  | Decimal.Nil => []
  | Decimal.D0 r => 48%N :: digits r
  | Decimal.D1 r => 49%N :: digits r
  | Decimal.D2 r => 50%N :: digits r
  | Decimal.D3 r => 51%N :: digits r
  | Decimal.D4 r => 52%N :: digits r
  | Decimal.D5 r => 53%N :: digits r
  | Decimal.D6 r => 54%N :: digits r
  | Decimal.D7 r => 55%N :: digits r
  | Decimal.D8 r => 56%N :: digits r
  | Decimal.D9 r => 57%N :: digits r
  end.

Definition ofNumber (n : N) : str := digits (N.to_uint n).

(** Character classes of the regular expressions of the module. *)
Definition inRange (lo hi c : char) : bool := (N.leb lo c && N.leb c hi)%bool.

Definition isLower (c : char) : bool := inRange 97 122 c.       (* a-z *)
Definition isUpper (c : char) : bool := inRange 65 90 c.        (* A-Z *)
Definition isDigit (c : char) : bool := inRange 48 57 c.        (* 0-9 *)
Definition isCJK (c : char) : bool := inRange 0x4e00 0x9fa5 c.  (* 一-龥 *)
Definition underscore : char := 95%N.
Definition isUnderscore (c : char) : bool := N.eqb c underscore.

(** [[a-zA-Z]] *)
Definition isLetter (c : char) : bool := isLower c || isUpper c.
(** [[a-zA-Z0-9_]] *)
Definition isWord (c : char) : bool := isLetter c || isDigit c || isUnderscore c.

(** [toLowerCase] and [toUpperCase], on the code units the module applies
    them to: the ASCII letters change case, digits and [_] stay.  On other
    code units the model is the identity, which is not what JavaScript does
    for every one of them; [normalizeAssetName] only ever applies the two
    functions to strings over [[a-zA-Z0-9_]] (lemma [lowered_input_word]). *)
Definition lowerChar (c : char) : char := if isUpper c then (c + 32)%N else c.
Definition upperChar (c : char) : char := if isLower c then (c - 32)%N else c.
Definition toLowerCase (s : str) : str := map lowerChar s.
Definition toUpperCase (s : str) : str := map upperChar s.

(** [s.slice(0, n)] and [s.slice(1)]. *)
Definition sliceTo (n : nat) (s : str) : str := firstn n s.
Definition sliceFrom1 (s : str) : str := tl s.

(** [s.split(sep)] for a one-character separator.  [cur] is the fragment
    being read, in reverse.  The empty string splits to one empty
    fragment. *)
Fixpoint splitFrom (sep : char) (cur : str) (s : str) : list str :=
  match s with
  | [] => [rev cur]
  | c :: r => if N.eqb c sep then rev cur :: splitFrom sep [] r
              else splitFrom sep (c :: cur) r
  end.
Definition split (sep : char) (s : str) : list str := splitFrom sep [] s.

(** [parts.join('')]. *)
Definition join (parts : list str) : str := List.concat parts.

(** [!!p] on a string: the empty string is the only falsy one. *)
Definition nonEmpty (s : str) : bool :=
  match s with [] => false | _ :: _ => true end.

End Js.

Abbreviation jsstring := Js.str.

(** ** Results of functions that may throw *)

Inductive error : Type :=
| TypeError                 (* reading a property of [undefined] *)
| Error (message : jsstring). (* [throw new Error(message)] *)

Inductive outcome (A : Type) : Type :=
| Returned (a : A)
| Thrown (e : error).
Arguments Returned {A} a.
Arguments Thrown {A} e.

Definition bind {A B} (m : outcome A) (k : A -> outcome B) : outcome B :=
  match m with
  | Returned a => k a
  | Thrown e => Thrown e
  end.

Notation "x <- m ;; k" := (bind m (fun x => k))
  (at level 61, m at next level, right associativity).

Fixpoint mapM {A B} (f : A -> outcome B) (xs : list A) : outcome (list B) :=
  match xs with
  | [] => Returned []
  | x :: r => y <- f x ;; ys <- mapM f r ;; Returned (y :: ys)
  end.

(** ** The scopes: project, sprite, stage

    Only the fields the module reads are kept. *)

Record Costume := { costume_name : jsstring }.
Record Sound := { sound_name : jsstring }.
Record Backdrop := { backdrop_name : jsstring }.
Record Sprite := { sprite_name : jsstring; costumes : list Costume }.
Record Stage := { backdrops : list Backdrop }.
Record Project := { sprites : list Sprite; sounds : list Sound }.

(** ** Localised messages *)

Record LocaleMessage := { en : jsstring; zh : jsstring }.

Module Msg.
Import Js.
Local Open Scope N_scope.

(* 名字不可为空 *)
Definition blank : LocaleMessage :=
  {| en := lit "The name must not be blank";
     zh := [21517; 23383; 19981; 21487; 20026; 31354] |}.
(* 名字长度超出限制（最多 100 个字符） *)
Definition tooLong : LocaleMessage :=
  {| en := lit "The name is too long (maximum is 100 characters)";
     zh := [21517; 23383; 38271; 24230; 36229; 20986; 38480; 21046; 65288;
            26368; 22810; 32; 49; 48; 48; 32; 20010; 23383; 31526; 65289] |}.
(* 格式不正确 *)
Definition invalid : LocaleMessage :=
  {| en := lit "Invalid name"; zh := [26684; 24335; 19981; 27491; 30830] |}.
(* 与关键字冲突 *)
Definition keywordConflict : LocaleMessage :=
  {| en := lit "Conflict with keywords";
     zh := [19982; 20851; 38190; 23383; 20914; 31361] |}.
(* 存在同名的精灵 *)
Definition spriteExists (name : str) : LocaleMessage :=
  {| en := lit "Sprite with name " ++ name ++ lit " already exists";
     zh := [23384; 22312; 21516; 21517; 30340; 31934; 28789] |}.
(* 存在同名的声音 *)
Definition soundExists (name : str) : LocaleMessage :=
  {| en := lit "Sound with name " ++ name ++ lit " already exists";
     zh := [23384; 22312; 21516; 21517; 30340; 22768; 38899] |}.
(* 存在同名的造型 *)
Definition costumeExists (name : str) : LocaleMessage :=
  {| en := lit "Costume with name " ++ name ++ lit " already exists";
     zh := [23384; 22312; 21516; 21517; 30340; 36896; 22411] |}.
(* 存在同名的背景 *)
Definition backdropExists (name : str) : LocaleMessage :=
  {| en := lit "Backdrop with name " ++ name ++ lit " already exists";
     zh := [23384; 22312; 21516; 21517; 30340; 32972; 26223] |}.
End Msg.

(** [x == null] on a value that is a message or [undefined]. *)
Definition isNull {A} (o : option A) : bool :=
  match o with None => true | Some _ => false end.

(** ** The regular expression of names

    [/^[一-龥a-zA-Z_][一-龥a-zA-Z0-9_]*$/.test(name)] *)

Definition isNameStart (c : Js.char) : bool :=
  Js.isCJK c || Js.isLetter c || Js.isUnderscore c.
Definition isNameChar (c : Js.char) : bool :=
  Js.isCJK c || Js.isLetter c || Js.isDigit c || Js.isUnderscore c.

Definition nameRegexTest (name : jsstring) : bool :=
  match name with
  | [] => false
  | c :: rest => isNameStart c && forallb isNameChar rest
  end.

(** ** Validation *)

Section Validation.

(** The two reserved-word tables come from [@/utils/spx]; the module only
    asks whether a name is a member of each. *)
Variables keywords typeKeywords : list jsstring.

Definition validateAssetName (name : jsstring) : option LocaleMessage :=
  if Js.eqb name [] then Some Msg.blank
  else if Nat.ltb 100 (length name) then Some Msg.tooLong
  else if negb (nameRegexTest name) then Some Msg.invalid
  else if Js.includes typeKeywords name then Some Msg.keywordConflict
  else if Js.includes keywords name then Some Msg.keywordConflict
  else None.

Definition validateSpriteName (name : jsstring) (project : option Project)
  : option LocaleMessage :=
  match validateAssetName name with
  | Some err => Some err
  | None =>
      match project with
      | Some p =>
          if Js.truthy (Js.find (fun s => Js.eqb (sprite_name s) name) (sprites p))
          then Some (Msg.spriteExists name)
          else if Js.truthy (Js.find (fun s => Js.eqb (sound_name s) name) (sounds p))
          then Some (Msg.soundExists name)
          else None
      | None => None
      end
  end.

Definition validateCostumeName (name : jsstring) (sprite : option Sprite)
  : option LocaleMessage :=
  match validateAssetName name with
  | Some err => Some err
  | None =>
      match sprite with
      | Some sp =>
          if Js.truthy (Js.find (fun c => Js.eqb (costume_name c) name) (costumes sp))
          then Some (Msg.costumeExists name)
          else None
      | None => None
      end
  end.

Definition validateSoundName (name : jsstring) (project : option Project)
  : option LocaleMessage :=
  validateSpriteName name project.

Definition validateBackdropName (name : jsstring) (stage : option Stage)
  : option LocaleMessage :=
  match validateAssetName name with
  | Some err => Some err
  | None =>
      match stage with
      | Some st =>
          if Js.truthy (Js.find (fun b => Js.eqb (backdrop_name b) name) (backdrops st))
          then Some (Msg.backdropExists name)
          else None
      | None => None
      end
  end.

End Validation.

(** ** Normalisation *)

Inductive NameCase : Type := camel | pascal.

(** [str[0].toUpperCase() + str.slice(1)]; on the empty string [str[0]] is
    [undefined] and the method call throws a [TypeError]. *)
Definition upFirst (s : jsstring) : outcome jsstring :=
  match s with
  | [] => Thrown TypeError
  | c :: _ => Returned (Js.toUpperCase [c] ++ Js.sliceFrom1 s)
  end.

(** [.replace(/[^a-zA-Z0-9_]+/g, '_')]: every maximal run of characters
    outside the class becomes one [_].  [inRun] says that the previous
    character belonged to such a run. *)
Fixpoint replaceNonWordRuns (inRun : bool) (s : jsstring) : jsstring :=
  match s with
  | [] => []
  | c :: r =>
      if Js.isWord c then c :: replaceNonWordRuns false r
      else if inRun then replaceNonWordRuns true r
      else Js.underscore :: replaceNonWordRuns true r
  end.

(** [.replace(/([A-Z])/g, '_$1')] *)
Definition markUpper (s : jsstring) : jsstring :=
  flat_map (fun c => if Js.isUpper c then [Js.underscore; c] else [c]) s.

(** [.replace(/^[^a-zA-Z]+/, '')] *)
Fixpoint stripLeadingNonLetters (s : jsstring) : jsstring :=
  match s with
  | [] => []
  | c :: r => if Js.isLetter c then s else stripLeadingNonLetters r
  end.

(** The value of [src] after the chain of replacements. *)
Definition cleaned (src : jsstring) : jsstring :=
  stripLeadingNonLetters (Js.toLowerCase (markUpper (replaceNonWordRuns false src))).

Definition normalizeAssetName (src : jsstring) (cas : NameCase) : outcome jsstring :=
  let src := cleaned src in
  let parts := filter Js.nonEmpty (Js.split Js.underscore src) in
  match parts with
  | [] => Returned []
  | firstpart :: otherParts =>
      first <- match cas with
               | pascal => upFirst firstpart
               | camel => Returned firstpart
               end ;;
      others <- mapM upFirst otherParts ;;
      Returned (Js.sliceTo 20 (Js.join (first :: others)))
  end.

(** ** Unique-name resolution *)

Section Resolver.

(** [isValid] is a callback: it is modelled with the state it may read and
    change, passed through the calls in order. *)
Context {S : Type}.
Variable base : jsstring.
Variable isValid : jsstring -> S -> bool * S.

(** [i === 1 ? base : base + i] *)
Definition candidate (i : N) : jsstring :=
  if N.eqb i 1 then base else base ++ Js.ofNumber i.

Definition loopError : error :=
  Error (Js.lit "unexpected infinite loop with base " ++ base).

(** The body of [for (let i = 1; ; i++)], from the value [i] on. *)
Equations? getValidName_from (i : N) (s : S) : outcome jsstring * S
  by wf (N.to_nat (10001 - i)) lt :=
getValidName_from i s with isValid (candidate i) s := {
  | (true, s') := (Returned (candidate i), s');
  | (false, s') with inspect (N.ltb 10000 i) := {
      | exist _ true _ := (Thrown loopError, s');
      | exist _ false notYet := getValidName_from (i + 1) s' } }.
Proof.
  clear getValidName_from.
  change (N.to_nat (10001 - (i + 1)) < N.to_nat (10001 - i)).
  apply N.ltb_ge in notYet. lia.
Qed.

Definition getValidName (s : S) : outcome jsstring * S := getValidName_from 1 s.

(** The state after the callback has been called on the candidates of
    [attempts], in order. *)
Definition afterCalls (attempts : list N) (s : S) : S :=
  fold_left (fun s i => snd (isValid (candidate i) s)) attempts s.

End Resolver.

(** A validator without effects, as a callback. *)
Definition pureCallback (p : jsstring -> bool) : jsstring -> unit -> bool * unit :=
  fun name s => (p name, s).

(** A callback that counts its calls and answers with [p]. *)
Definition counted (p : jsstring -> bool) : jsstring -> N -> bool * N :=
  fun name calls => (p name, (calls + 1)%N).

(** The values of [i] from [i] on, [k] of them. *)
Definition attemptsFrom (i : N) (k : nat) : list N :=
  map N.of_nat (seq (N.to_nat i) k).

(** [a || b] on strings. *)
Definition orElse (a b : jsstring) : jsstring := if Js.nonEmpty a then a else b.

(** ** Generators

    The parameter [base] defaults to the empty string; a caller that leaves
    it out is a caller that passes [[]]. *)

Section Generators.

Variables keywords typeKeywords : list jsstring.

Definition getSpriteName (project : option Project) (base : jsstring)
  : outcome jsstring :=
  normalized <- normalizeAssetName base pascal ;;
  let base := orElse normalized (Js.lit "Sprite") in
  fst (getValidName base
         (pureCallback (fun n => isNull (validateSpriteName keywords typeKeywords n project)))
         tt).

Definition ensureValidSpriteName (name : jsstring) (project : option Project)
  : outcome jsstring :=
  if isNull (validateSpriteName keywords typeKeywords name project) then Returned name
  else getSpriteName project name.

Definition getCostumeName (sprite : option Sprite) (base : jsstring)
  : outcome jsstring :=
  normalized <- normalizeAssetName base camel ;;
  let base := orElse normalized (Js.lit "costume") in
  fst (getValidName base
         (pureCallback (fun n => isNull (validateCostumeName keywords typeKeywords n sprite)))
         tt).

Definition ensureValidCostumeName (name : jsstring) (sprite : option Sprite)
  : outcome jsstring :=
  if isNull (validateCostumeName keywords typeKeywords name sprite) then Returned name
  else getCostumeName sprite name.

Definition getSoundName (project : option Project) (base : jsstring)
  : outcome jsstring :=
  normalized <- normalizeAssetName base camel ;;
  let base := orElse normalized (Js.lit "sound") in
  fst (getValidName base
         (pureCallback (fun n => isNull (validateSoundName keywords typeKeywords n project)))
         tt).

Definition ensureValidSoundName (name : jsstring) (project : option Project)
  : outcome jsstring :=
  if isNull (validateSoundName keywords typeKeywords name project) then Returned name
  else getSoundName project name.

Definition getBackdropName (stage : option Stage) (base : jsstring)
  : outcome jsstring :=
  normalized <- normalizeAssetName base camel ;;
  let base := orElse normalized (Js.lit "backdrop") in
  fst (getValidName base
         (pureCallback (fun n => isNull (validateBackdropName keywords typeKeywords n stage)))
         tt).

Definition ensureValidBackdropName (name : jsstring) (stage : option Stage)
  : outcome jsstring :=
  if isNull (validateBackdropName keywords typeKeywords name stage) then Returned name
  else getBackdropName stage name.

End Generators.

(** ** The grammar of names, as the specification words it

    A name matches when it is one start character (CJK, ASCII letter or [_])
    followed by any number of characters that are CJK, ASCII letters, digits
    or [_]. *)

Definition grammarStart (c : Js.char) : Prop :=
  (0x4e00 <= c <= 0x9fa5 \/ 65 <= c <= 90 \/ 97 <= c <= 122 \/ c = 95)%N.

Definition grammarRest (c : Js.char) : Prop :=
  (0x4e00 <= c <= 0x9fa5 \/ 65 <= c <= 90 \/ 97 <= c <= 122 \/ 48 <= c <= 57
   \/ c = 95)%N.

Definition matchesNameGrammar (name : jsstring) : Prop :=
  exists c rest, name = c :: rest /\ grammarStart c /\ Forall grammarRest rest.

(** A string over [[a-zA-Z0-9_]]. *)
Definition wordString (s : jsstring) : Prop := Forall (fun c => Js.isWord c = true) s.

(** A name collides with a child of a scope when a child carries it. *)
Definition nameTaken {A} (nameOf : A -> jsstring) (children : list A)
  (name : jsstring) : Prop :=
  exists x, In x children /\ nameOf x = name.

(** The value of [parts] in [normalizeAssetName]: the non-empty fragments
    of the cleaned source. *)
Definition fragments (src : jsstring) : list jsstring :=
  filter Js.nonEmpty (Js.split Js.underscore (cleaned src)).

(** What [upFirst] returns on a non-empty fragment. *)
Definition capitalize (p : jsstring) : jsstring :=
  match p with
  | [] => []
  | c :: t => Js.upperChar c :: t
  end.

(** [[a-zA-Z0-9]], [[a-z0-9]] and [[a-z0-9_]]. *)
Definition isAlnum (c : Js.char) : bool := Js.isLetter c || Js.isDigit c.
Definition isLowerAlnum (c : Js.char) : bool := Js.isLower c || Js.isDigit c.
Definition isLowerWord (c : Js.char) : bool := isLowerAlnum c || Js.isUnderscore c.

(** The first fragment as the style has it. *)
Definition styled (cas : NameCase) (p : jsstring) : jsstring :=
  match cas with
  | camel => p
  | pascal => capitalize p
  end.

(** A name made from [base] in the way of the generators: the normalised
    base, or [fallback] when that is empty, followed by at most five
    digits. *)
Definition generatedFrom (cas : NameCase) (fallback base name : jsstring) : Prop :=
  exists b suffix,
    normalizeAssetName base cas = Returned b
    /\ name = orElse b fallback ++ suffix
    /\ Forall (fun c => Js.isDigit c = true) suffix
    /\ length suffix <= 5.

(** The names in use in a scope, and the number of names in some lists. *)
Definition projectNames (project : option Project) : list jsstring :=
  match project with
  | None => []
  | Some p => map sprite_name (sprites p) ++ map sound_name (sounds p)
  end.

Definition costumeNames (sprite : option Sprite) : list jsstring :=
  match sprite with
  | None => []
  | Some sp => map costume_name (costumes sp)
  end.

Definition backdropNames (stage : option Stage) : list jsstring :=
  match stage with
  | None => []
  | Some st => map backdrop_name (backdrops st)
  end.

Definition namesInUse (lists : list (list jsstring)) : N :=
  N.of_nat (length (List.concat lists)).

(** The first character of a generated base, by style. *)
Definition isInitial (cas : NameCase) (c : Js.char) : bool :=
  match cas with
  | camel => Js.isLower c
  | pascal => Js.isUpper c
  end.

(** A base as the generators hand it to the resolver: at most 20 ASCII
    letters and digits, the first one a letter. *)
Definition goodBase (b : jsstring) : Prop :=
  exists cas c t, b = c :: t /\ isInitial cas c = true
    /\ Forall (fun a => isAlnum a = true) t /\ length b <= 20.

(** ** Sample data for the examples

    The contents of the reserved-word tables are not part of the module;
    the examples run on a small instance of them. *)

Module Demo.

Definition keywords : list jsstring := [Js.lit "func"; Js.lit "if"; Js.lit "var"].
Definition typeKeywords : list jsstring := [Js.lit "int"; Js.lit "string"].

Definition sprite (name : string) (costumeNames : list string) : Sprite :=
  {| sprite_name := Js.lit name;
     costumes := map (fun c => {| costume_name := Js.lit c |}) costumeNames |}.

Definition project (spriteNames soundNames : list string) : Project :=
  {| sprites := map (fun n => sprite n []) spriteNames;
     sounds := map (fun n => {| sound_name := Js.lit n |}) soundNames |}.

Definition stage (backdropNames : list string) : Stage :=
  {| backdrops := map (fun n => {| backdrop_name := Js.lit n |}) backdropNames |}.

(** A project with one sprite, [Foo]; one with the sprites [Foo] and
    [Foo2]; a sprite with the costume [walk]; a stage with the backdrop
    [backdrop]. *)
Definition oneFoo : Project := project ["Foo"%string] [].
Definition twoFoos : Project := project ["Foo"%string; "Foo2"%string] [].
Definition walker : Sprite := sprite "Hero" ["walk"%string].
Definition oneBackdrop : Stage := stage ["backdrop"%string].

End Demo.

(** * Facts *)

(** ** Strings and arrays *)

Lemma js_eqb_eq (a b : jsstring) : Js.eqb a b = true <-> a = b.
Proof.
  revert b. induction a as [|x a IH]; intros [|y b]; simpl; split;
    try congruence; try reflexivity.
  - intros H. apply andb_true_iff in H. destruct H as [Hx Hr].
    apply N.eqb_eq in Hx. apply IH in Hr. congruence.
  - intros H. injection H as -> ->. rewrite N.eqb_refl. simpl. now apply IH.
Qed.

Lemma js_eqb_nil (a : jsstring) : Js.eqb a [] = true <-> a = [].
Proof. apply js_eqb_eq. Qed.

Lemma js_includes_In (xs : list jsstring) (x : jsstring) :
  Js.includes xs x = true <-> In x xs.
Proof.
  unfold Js.includes. rewrite existsb_exists. split.
  - intros (y & Hy & E). apply js_eqb_eq in E. now subst.
  - intros H. exists x. split; [exact H | now apply js_eqb_eq].
Qed.

Lemma js_includes_false (xs : list jsstring) (x : jsstring) :
  Js.includes xs x = false <-> ~ In x xs.
Proof.
  rewrite <- js_includes_In. destruct (Js.includes xs x); split; congruence.
Qed.

Lemma find_truthy_taken {A} (nameOf : A -> jsstring) (xs : list A) (name : jsstring) :
  Js.truthy (Js.find (fun x => Js.eqb (nameOf x) name) xs) = true
  <-> nameTaken nameOf xs name.
Proof.
  unfold Js.find, nameTaken. induction xs as [|x xs IH]; simpl.
  - split; [discriminate | intros (y & [] & _)].
  - destruct (Js.eqb (nameOf x) name) eqn:E.
    + split; [|reflexivity]. intros _. exists x. split; [now left|].
      now apply js_eqb_eq.
    + rewrite IH. split.
      * intros (y & Hy & Hn). exists y. split; [now right | exact Hn].
      * intros (y & [-> | Hy] & Hn).
        -- apply js_eqb_eq in Hn. congruence.
        -- now exists y.
Qed.

Lemma find_truthy_free {A} (nameOf : A -> jsstring) (xs : list A) (name : jsstring) :
  Js.truthy (Js.find (fun x => Js.eqb (nameOf x) name) xs) = false
  <-> ~ nameTaken nameOf xs name.
Proof.
  rewrite <- find_truthy_taken.
  destruct (Js.truthy _); split; congruence.
Qed.

(** ** The regular expression against the grammar of the specification *)

Lemma inRange_spec (lo hi c : N) : Js.inRange lo hi c = true <-> (lo <= c <= hi)%N.
Proof.
  unfold Js.inRange. rewrite andb_true_iff, !N.leb_le. reflexivity.
Qed.

Lemma isNameStart_spec (c : Js.char) : isNameStart c = true <-> grammarStart c.
Proof.
  unfold isNameStart, grammarStart, Js.isLetter, Js.isCJK, Js.isLower, Js.isUpper,
    Js.isUnderscore, Js.underscore.
  rewrite !orb_true_iff, !inRange_spec, N.eqb_eq. tauto.
Qed.

Lemma isNameChar_spec (c : Js.char) : isNameChar c = true <-> grammarRest c.
Proof.
  unfold isNameChar, grammarRest, Js.isLetter, Js.isCJK, Js.isLower, Js.isUpper,
    Js.isDigit, Js.isUnderscore, Js.underscore.
  rewrite !orb_true_iff, !inRange_spec, N.eqb_eq. tauto.
Qed.

Lemma nameRegexTest_spec (name : jsstring) :
  nameRegexTest name = true <-> matchesNameGrammar name.
Proof.
  unfold matchesNameGrammar. destruct name as [|c rest]; simpl.
  - split; [discriminate | intros (c & r & E & _); discriminate].
  - rewrite andb_true_iff, isNameStart_spec, forallb_forall. split.
    + intros [Hc Hr]. exists c, rest. repeat split; [exact Hc|].
      apply Forall_forall. intros x Hx. apply isNameChar_spec. now apply Hr.
    + intros (c' & r' & E & Hc & Hr). injection E as -> ->. split; [exact Hc|].
      intros x Hx. apply isNameChar_spec.
      rewrite Forall_forall in Hr. now apply Hr.
Qed.

Lemma nameRegexTest_false (name : jsstring) :
  nameRegexTest name = false <-> ~ matchesNameGrammar name.
Proof.
  rewrite <- nameRegexTest_spec. destruct (nameRegexTest name); split; congruence.
Qed.

(** ** The validators *)

Section ValidationFacts.

Variables keywords typeKeywords : list jsstring.


Lemma validateAssetName_null (name : jsstring) :
  validateAssetName keywords typeKeywords name = None
  <-> name <> [] /\ length name <= 100 /\ nameRegexTest name = true
      /\ ~ In name typeKeywords /\ ~ In name keywords.
Proof.
  unfold validateAssetName.
  destruct (Js.eqb name []) eqn:Eb.
  { apply js_eqb_nil in Eb. split; [discriminate | tauto]. }
  assert (name <> []) as Hne.
  { intros E. apply js_eqb_nil in E. congruence. }
  destruct (Nat.ltb 100 (length name)) eqn:El.
  { apply Nat.ltb_lt in El. split; [discriminate | lia]. }
  apply Nat.ltb_ge in El.
  destruct (nameRegexTest name) eqn:Er; simpl.
  2:{ split; [discriminate | intros (_ & _ & F & _); discriminate]. }
  destruct (Js.includes typeKeywords name) eqn:Et.
  { apply js_includes_In in Et. split; [discriminate | tauto]. }
  apply js_includes_false in Et.
  destruct (Js.includes keywords name) eqn:Ek.
  { apply js_includes_In in Ek. split; [discriminate | tauto]. }
  apply js_includes_false in Ek. tauto.
Qed.

(** C2. [validateAssetName] checks blank, then too long (more than 100
    code units), then the grammar, then the reserved words, and answers with
    the message of the first rule that fails; it answers [null] exactly when
    the name is non-empty, at most 100 long, matches the grammar and is in
    neither reserved-word table. *)
Theorem validateAssetName_precedence (name : jsstring) :
  (name = [] -> validateAssetName keywords typeKeywords name = Some Msg.blank)
  /\ (name <> [] -> 100 < length name ->
      validateAssetName keywords typeKeywords name = Some Msg.tooLong)
  /\ (name <> [] -> length name <= 100 -> ~ matchesNameGrammar name ->
      validateAssetName keywords typeKeywords name = Some Msg.invalid)
  /\ (name <> [] -> length name <= 100 -> matchesNameGrammar name ->
      In name typeKeywords \/ In name keywords ->
      validateAssetName keywords typeKeywords name = Some Msg.keywordConflict)
  /\ (validateAssetName keywords typeKeywords name = None
      <-> name <> [] /\ length name <= 100 /\ matchesNameGrammar name
          /\ ~ In name typeKeywords /\ ~ In name keywords).
Proof.
  repeat split.
  - intros ->. reflexivity.
  - intros Hne Hl. unfold validateAssetName.
    rewrite <- js_eqb_nil in Hne. apply not_true_is_false in Hne. rewrite Hne.
    apply Nat.ltb_lt in Hl. now rewrite Hl.
  - intros Hne Hl Hg. unfold validateAssetName.
    rewrite <- js_eqb_nil in Hne. apply not_true_is_false in Hne. rewrite Hne.
    apply Nat.ltb_ge in Hl. rewrite Hl.
    apply nameRegexTest_false in Hg. now rewrite Hg.
  - intros Hne Hl Hg Hk. unfold validateAssetName.
    rewrite <- js_eqb_nil in Hne. apply not_true_is_false in Hne. rewrite Hne.
    apply Nat.ltb_ge in Hl. rewrite Hl.
    apply nameRegexTest_spec in Hg. rewrite Hg. simpl.
    destruct (Js.includes typeKeywords name) eqn:Et; [reflexivity|].
    apply js_includes_false in Et. destruct Hk as [Hk | Hk]; [tauto|].
    apply js_includes_In in Hk. now rewrite Hk.
  - now apply validateAssetName_null.
  - now apply validateAssetName_null.
  - apply nameRegexTest_spec. now apply validateAssetName_null.
  - now apply validateAssetName_null.
  - now apply validateAssetName_null.
  - intros (Hne & Hl & Hg & Ht & Hk). apply validateAssetName_null.
    apply nameRegexTest_spec in Hg. tauto.
Qed.

Lemma validateSpriteName_none (name : jsstring) (project : option Project) :
  validateSpriteName keywords typeKeywords name project = None
  <-> validateAssetName keywords typeKeywords name = None
      /\ forall p, project = Some p ->
           ~ nameTaken sprite_name (sprites p) name
           /\ ~ nameTaken sound_name (sounds p) name.
Proof.
  unfold validateSpriteName.
  destruct (validateAssetName keywords typeKeywords name) as [err|].
  { split; [discriminate | intros [F _]; discriminate]. }
  destruct project as [p|].
  2:{ split; [|reflexivity]. intros _. split; [reflexivity | discriminate]. }
  destruct (Js.truthy (Js.find _ (sprites p))) eqn:Es.
  { apply find_truthy_taken in Es. split; [discriminate|].
    intros [_ H]. destruct (H p eq_refl) as [F _]. contradiction. }
  apply find_truthy_free in Es.
  destruct (Js.truthy (Js.find _ (sounds p))) eqn:Eo.
  { apply find_truthy_taken in Eo. split; [discriminate|].
    intros [_ H]. destruct (H p eq_refl) as [_ F]. contradiction. }
  apply find_truthy_free in Eo.
  split; [|reflexivity]. intros _. split; [reflexivity|].
  intros q E. injection E as <-. now split.
Qed.

Lemma validateCostumeName_none (name : jsstring) (sprite : option Sprite) :
  validateCostumeName keywords typeKeywords name sprite = None
  <-> validateAssetName keywords typeKeywords name = None
      /\ forall sp, sprite = Some sp -> ~ nameTaken costume_name (costumes sp) name.
Proof.
  unfold validateCostumeName.
  destruct (validateAssetName keywords typeKeywords name) as [err|].
  { split; [discriminate | intros [F _]; discriminate]. }
  destruct sprite as [sp|].
  2:{ split; [|reflexivity]. intros _. split; [reflexivity | discriminate]. }
  destruct (Js.truthy (Js.find _ (costumes sp))) eqn:Ec.
  { apply find_truthy_taken in Ec. split; [discriminate|].
    intros [_ H]. now specialize (H sp eq_refl). }
  apply find_truthy_free in Ec.
  split; [|reflexivity]. intros _. split; [reflexivity|].
  intros q E. now injection E as <-.
Qed.

(** C3. [validateSpriteName] answers [null] if and only if
    [validateAssetName] does and the project is absent or has neither a
    sprite nor a sound of that name; without a project it is
    [validateAssetName]. *)
Theorem validateSpriteName_null_iff (name : jsstring) (project : option Project) :
  (validateSpriteName keywords typeKeywords name project = None
   <-> validateAssetName keywords typeKeywords name = None
       /\ (project = None
           \/ exists p, project = Some p
                /\ ~ nameTaken sprite_name (sprites p) name
                /\ ~ nameTaken sound_name (sounds p) name))
  /\ validateSpriteName keywords typeKeywords name None
     = validateAssetName keywords typeKeywords name.
Proof.
  split.
  - rewrite validateSpriteName_none. split.
    + intros [Ha Hp]. split; [exact Ha|].
      destruct project as [p|]; [right | now left].
      exists p. split; [reflexivity | now apply Hp].
    + intros [Ha Hp]. split; [exact Ha|]. intros p ->.
      destruct Hp as [F | (q & E & H)]; [discriminate|].
      now injection E as <-.
  - unfold validateSpriteName.
    now destruct (validateAssetName keywords typeKeywords name).
Qed.

(** C5. [validateSoundName] gives, for every name and project, the result
    of [validateSpriteName]. *)
Theorem validateSoundName_is_validateSpriteName
  (name : jsstring) (project : option Project) :
  validateSoundName keywords typeKeywords name project
  = validateSpriteName keywords typeKeywords name project.
Proof. reflexivity. Qed.

End ValidationFacts.

Lemma validateAssetName_precedence_witness :
  validateAssetName Demo.keywords Demo.typeKeywords [] = Some Msg.blank
  /\ validateAssetName Demo.keywords Demo.typeKeywords (repeat 97%N 101)
     = Some Msg.tooLong
  /\ validateAssetName Demo.keywords Demo.typeKeywords (Js.lit "1abc")
     = Some Msg.invalid
  /\ validateAssetName Demo.keywords Demo.typeKeywords (Js.lit "if")
     = Some Msg.keywordConflict
  /\ validateAssetName Demo.keywords Demo.typeKeywords (Js.lit "Foo") = None.
Proof.
  repeat apply conj.
  - destruct (validateAssetName_precedence Demo.keywords Demo.typeKeywords [])
      as (H & _).
    apply H. reflexivity.
  - destruct (validateAssetName_precedence Demo.keywords Demo.typeKeywords
                (repeat 97%N 101)) as (_ & H & _).
    apply H; [discriminate | simpl; lia].
  - destruct (validateAssetName_precedence Demo.keywords Demo.typeKeywords
                (Js.lit "1abc")) as (_ & _ & H & _).
    apply H; [discriminate | simpl; lia |].
    apply nameRegexTest_false. reflexivity.
  - destruct (validateAssetName_precedence Demo.keywords Demo.typeKeywords
                (Js.lit "if")) as (_ & _ & _ & H & _).
    apply H; [discriminate | simpl; lia | |].
    + apply nameRegexTest_spec. reflexivity.
    + right. apply js_includes_In. reflexivity.
  - destruct (validateAssetName_precedence Demo.keywords Demo.typeKeywords
                (Js.lit "Foo")) as (_ & _ & _ & _ & H).
    apply H. repeat apply conj.
    + discriminate.
    + simpl. lia.
    + apply nameRegexTest_spec. reflexivity.
    + apply js_includes_false. reflexivity.
    + apply js_includes_false. reflexivity.
Defined.

(** ** The resolver *)

Lemma attemptsFrom_cons (i : N) (k : nat) :
  attemptsFrom i (Datatypes.S k) = i :: attemptsFrom (i + 1) k.
Proof.
  unfold attemptsFrom. cbn [seq map]. rewrite N2Nat.id.
  replace (N.to_nat (i + 1)) with (Datatypes.S (N.to_nat i)) by lia.
  reflexivity.
Qed.

Lemma attemptsFrom_length (i : N) (k : nat) : length (attemptsFrom i k) = k.
Proof. unfold attemptsFrom. now rewrite length_map, length_seq. Qed.

Section ResolverFacts.

Context {S : Type}.
Variable base : jsstring.
Variable isValid : jsstring -> S -> bool * S.

Lemma getValidName_from_step (i : N) (s : S) :
  getValidName_from base isValid i s =
  let (ok, s') := isValid (candidate base i) s in
  if ok then (Returned (candidate base i), s')
  else if N.ltb 10000 i then (Thrown (loopError base), s')
  else getValidName_from base isValid (i + 1) s'.
Proof.
  simp getValidName_from.
  destruct (isValid (candidate base i) s) as [[|] s']; simpl; [reflexivity|].
  now destruct (N.ltb 10000 i).
Qed.

(** A name that is returned was accepted by the callback. *)
Lemma getValidName_from_accepted (i : N) (s : S) (name : jsstring) :
  fst (getValidName_from base isValid i s) = Returned name ->
  exists s0, fst (isValid name s0) = true.
Proof.
  funelim (getValidName_from base isValid i s); simpl; intros E.
  - injection E as <-. exists s. now rewrite Heq.
  - discriminate.
  - eauto.
Qed.

(** The only error of the loop is its own. *)
Lemma getValidName_from_thrown (i : N) (s : S) (e : error) :
  fst (getValidName_from base isValid i s) = Thrown e -> e = loopError base.
Proof.
  funelim (getValidName_from base isValid i s); simpl; intros E.
  - discriminate.
  - now injection E as <-.
  - eauto.
Qed.

Lemma afterCalls_cons (i : N) (attempts : list N) (s : S) :
  afterCalls base isValid (i :: attempts) s
  = afterCalls base isValid attempts (snd (isValid (candidate base i) s)).
Proof. reflexivity. Qed.

Lemma getValidName_from_all_rejected (k : nat) (i : N) (s : S) :
  (forall name s, fst (isValid name s) = false) ->
  (i + N.of_nat k = 10001)%N ->
  getValidName_from base isValid i s
  = (Thrown (loopError base),
     afterCalls base isValid (attemptsFrom i (Datatypes.S k)) s).
Proof.
  intros Hrej. revert i s. induction k as [|k IH]; intros i s Hi;
    rewrite getValidName_from_step, attemptsFrom_cons, afterCalls_cons;
    pose proof (Hrej (candidate base i) s) as Hf;
    destruct (isValid (candidate base i) s) as [ok s']; simpl in Hf; subst ok.
  - assert (N.ltb 10000 i = true) as -> by (apply N.ltb_lt; lia).
    reflexivity.
  - assert (N.ltb 10000 i = false) as -> by (apply N.ltb_ge; lia).
    apply IH. lia.
Qed.

End ResolverFacts.

Lemma afterCalls_counted (base : jsstring) (p : jsstring -> bool)
  (attempts : list N) (calls : N) :
  afterCalls base (counted p) attempts calls
  = (calls + N.of_nat (length attempts))%N.
Proof.
  revert calls. induction attempts as [|i attempts IH]; intros calls.
  - simpl. lia.
  - rewrite afterCalls_cons, IH. unfold counted. simpl snd. simpl length. lia.
Qed.

(** C4, as the code has it. With a callback that answers [false] on every
    name, [getValidName] throws its error (it does not loop), after the
    callback has been called on the candidates numbered 1 to 10001: 10001
    calls. *)
Theorem getValidName_always_invalid {S : Type} (base : jsstring)
  (isValid : jsstring -> S -> bool * S) (s : S) :
  (forall name s, fst (isValid name s) = false) ->
  getValidName base isValid s
  = (Thrown (loopError base),
     afterCalls base isValid (attemptsFrom 1 10001) s)
  /\ length (attemptsFrom 1 10001) = 10001
  /\ forall calls,
       getValidName base (counted (fun _ => false)) calls
       = (Thrown (loopError base), (calls + 10001)%N).
Proof.
  intros Hrej. change 10001 with (Datatypes.S 10000). split; [|split].
  - apply getValidName_from_all_rejected; [exact Hrej | reflexivity].
  - apply attemptsFrom_length.
  - intros calls. unfold getValidName.
    rewrite (@getValidName_from_all_rejected N base _ 10000) by
      (try reflexivity; intros; reflexivity).
    rewrite afterCalls_counted, attemptsFrom_length. reflexivity.
Qed.

Lemma getValidName_always_invalid_witness :
  getValidName (Js.lit "Sprite") (counted (fun _ => false)) 0%N
  = (Thrown (loopError (Js.lit "Sprite")), 10001%N).
Proof.
  destruct (@getValidName_always_invalid N (Js.lit "Sprite")
              (counted (fun _ => false)) 0%N) as (_ & _ & H).
  - intros name s. reflexivity.
  - exact (H 0%N).
Defined.

(** C4, as the claim has it, fails: the callback is called more than 10000
    times before the error is thrown. *)
Lemma getValidName_calls_exceed_10000 :
  exists calls,
    snd (getValidName (Js.lit "Sprite") (counted (fun _ => false)) 0%N) = calls
    /\ (10000 < calls)%N.
Proof. exists 10001%N. split; [vm_compute; reflexivity | reflexivity]. Qed.

(** ** Pure validators as callbacks *)

Section PureCallback.

Variable base : jsstring.
Variable p : jsstring -> bool.

Lemma getValidName_pure_accepted (name : jsstring) :
  fst (getValidName base (pureCallback p) tt) = Returned name -> p name = true.
Proof.
  intros H. apply getValidName_from_accepted in H. now destruct H as [[] H].
Qed.

Lemma getValidName_pure_first :
  p base = true -> fst (getValidName base (pureCallback p) tt) = Returned base.
Proof.
  intros H. unfold getValidName. rewrite getValidName_from_step.
  unfold pureCallback, candidate. simpl. now rewrite H.
Qed.

Lemma getValidName_pure_second :
  p base = false -> p (base ++ Js.ofNumber 2) = true ->
  fst (getValidName base (pureCallback p) tt) = Returned (base ++ Js.ofNumber 2).
Proof.
  intros H1 H2. unfold getValidName. rewrite getValidName_from_step.
  unfold pureCallback at 1. unfold candidate at 1. simpl N.eqb. cbv iota.
  rewrite H1. simpl N.ltb. cbv iota.
  change (1 + 1)%N with 2%N. rewrite getValidName_from_step.
  unfold pureCallback at 1. unfold candidate. simpl N.eqb. cbv iota.
  now rewrite H2.
Qed.

End PureCallback.

Lemma isNull_true {A} (o : option A) : isNull o = true <-> o = None.
Proof. destruct o; simpl; split; congruence. Qed.

Lemma isNull_false {A} (o : option A) : isNull o = false <-> o <> None.
Proof. destruct o; simpl; split; congruence. Qed.

(** What every generator does after normalising: resolve against the
    validator [v] of its kind. *)
Lemma resolved_name_valid {A} (v : jsstring -> option A)
  (normalized : outcome jsstring) (fallback name : jsstring) :
  (n <- normalized ;;
   fst (getValidName (orElse n fallback) (pureCallback (fun c => isNull (v c))) tt))
  = Returned name ->
  v name = None.
Proof.
  destruct normalized as [n|e]; simpl; [|discriminate].
  intros H. apply getValidName_pure_accepted in H. now apply isNull_true.
Qed.

(** ** The generators *)

Section GeneratorFacts.

Variables keywords typeKeywords : list jsstring.

(** C1. A name that a generator returns passes the validator of its kind,
    in the scope it was generated for. *)
Theorem generated_name_is_valid
  (project : option Project) (sprite : option Sprite) (stage : option Stage)
  (base name : jsstring) :
  (getSpriteName keywords typeKeywords project base = Returned name ->
   validateSpriteName keywords typeKeywords name project = None)
  /\ (getCostumeName keywords typeKeywords sprite base = Returned name ->
      validateCostumeName keywords typeKeywords name sprite = None)
  /\ (getSoundName keywords typeKeywords project base = Returned name ->
      validateSoundName keywords typeKeywords name project = None)
  /\ (getBackdropName keywords typeKeywords stage base = Returned name ->
      validateBackdropName keywords typeKeywords name stage = None).
Proof.
  repeat apply conj; intros H; exact (resolved_name_valid _ _ _ H).
Qed.

(** C6. A name that [validateSpriteName] accepts comes back unchanged from
    [ensureValidSpriteName]. *)
Theorem ensureValidSpriteName_keeps_valid
  (name : jsstring) (project : option Project) :
  validateSpriteName keywords typeKeywords name project = None ->
  ensureValidSpriteName keywords typeKeywords name project = Returned name.
Proof.
  intros H. unfold ensureValidSpriteName. now rewrite H.
Qed.

Lemma ensureValidCostumeName_valid (name r : jsstring) (sprite : option Sprite) :
  ensureValidCostumeName keywords typeKeywords name sprite = Returned r ->
  validateCostumeName keywords typeKeywords r sprite = None.
Proof.
  unfold ensureValidCostumeName.
  destruct (isNull (validateCostumeName keywords typeKeywords name sprite)) eqn:E.
  - intros H. injection H as <-. now apply isNull_true.
  - intros H. exact (resolved_name_valid _ _ _ H).
Qed.

(** C7. [ensureValidCostumeName] is idempotent: applied to its own result,
    in the same scope, it gives that result again (and when the first call
    throws, so does the composition, with the same error). *)
Theorem ensureValidCostumeName_idempotent
  (name : jsstring) (sprite : option Sprite) :
  (r <- ensureValidCostumeName keywords typeKeywords name sprite ;;
   ensureValidCostumeName keywords typeKeywords r sprite)
  = ensureValidCostumeName keywords typeKeywords name sprite.
Proof.
  destruct (ensureValidCostumeName keywords typeKeywords name sprite) as [r|e] eqn:E;
    simpl; [|reflexivity].
  apply ensureValidCostumeName_valid in E.
  unfold ensureValidCostumeName. now rewrite E.
Qed.

Lemma validateAssetName_Foo2 :
  ~ In (Js.lit "Foo2") typeKeywords -> ~ In (Js.lit "Foo2") keywords ->
  validateAssetName keywords typeKeywords (Js.lit "Foo2") = None.
Proof.
  intros Ht Hk. apply validateAssetName_null. repeat split; try assumption.
  - discriminate.
  - simpl. lia.
Qed.

(** C8, as the code has it. In a project that has a sprite [Foo] and neither
    a sprite nor a sound [Foo2], [getSpriteName] on [Foo] returns [Foo2]
    ([Foo2] not being a reserved word). *)
Theorem getSpriteName_Foo_gives_Foo2 (p : Project) :
  nameTaken sprite_name (sprites p) (Js.lit "Foo") ->
  ~ nameTaken sprite_name (sprites p) (Js.lit "Foo2") ->
  ~ nameTaken sound_name (sounds p) (Js.lit "Foo2") ->
  ~ In (Js.lit "Foo2") typeKeywords -> ~ In (Js.lit "Foo2") keywords ->
  getSpriteName keywords typeKeywords (Some p) (Js.lit "Foo")
  = Returned (Js.lit "Foo2").
Proof.
  intros Hfoo Hs2 Ho2 Ht Hk. unfold getSpriteName.
  change (normalizeAssetName (Js.lit "Foo") pascal) with (Returned (Js.lit "Foo")).
  cbn [bind]. change (orElse (Js.lit "Foo") (Js.lit "Sprite")) with (Js.lit "Foo").
  change (Js.lit "Foo2") with (Js.lit "Foo" ++ Js.ofNumber 2).
  apply getValidName_pure_second.
  - apply isNull_false. intros E. apply validateSpriteName_none in E.
    destruct E as [_ E]. destruct (E p eq_refl) as [F _]. contradiction.
  - apply isNull_true. apply validateSpriteName_none. split.
    + now apply validateAssetName_Foo2.
    + intros q E. injection E as <-. now split.
Qed.

End GeneratorFacts.

Lemma generated_name_is_valid_witness :
  validateSpriteName Demo.keywords Demo.typeKeywords (Js.lit "Foo2")
    (Some Demo.oneFoo) = None
  /\ validateCostumeName Demo.keywords Demo.typeKeywords (Js.lit "walk2")
       (Some Demo.walker) = None
  /\ validateSoundName Demo.keywords Demo.typeKeywords (Js.lit "foo")
       (Some Demo.oneFoo) = None
  /\ validateBackdropName Demo.keywords Demo.typeKeywords (Js.lit "backdrop2")
       (Some Demo.oneBackdrop) = None.
Proof.
  repeat apply conj.
  - destruct (generated_name_is_valid Demo.keywords Demo.typeKeywords
                (Some Demo.oneFoo) None None (Js.lit "Foo") (Js.lit "Foo2"))
      as (H & _).
    apply H. vm_compute. reflexivity.
  - destruct (generated_name_is_valid Demo.keywords Demo.typeKeywords
                None (Some Demo.walker) None (Js.lit "Walk") (Js.lit "walk2"))
      as (_ & H & _).
    apply H. vm_compute. reflexivity.
  - destruct (generated_name_is_valid Demo.keywords Demo.typeKeywords
                (Some Demo.oneFoo) None None (Js.lit "Foo") (Js.lit "foo"))
      as (_ & _ & H & _).
    apply H. vm_compute. reflexivity.
  - destruct (generated_name_is_valid Demo.keywords Demo.typeKeywords
                None None (Some Demo.oneBackdrop) (Js.lit "") (Js.lit "backdrop2"))
      as (_ & _ & _ & H).
    apply H. vm_compute. reflexivity.
Defined.

Lemma ensureValidSpriteName_keeps_valid_witness :
  ensureValidSpriteName Demo.keywords Demo.typeKeywords (Js.lit "Bar")
    (Some Demo.oneFoo) = Returned (Js.lit "Bar").
Proof.
  apply (ensureValidSpriteName_keeps_valid Demo.keywords Demo.typeKeywords
           (Js.lit "Bar") (Some Demo.oneFoo)).
  vm_compute. reflexivity.
Defined.

Lemma getSpriteName_Foo_gives_Foo2_witness :
  getSpriteName Demo.keywords Demo.typeKeywords (Some Demo.oneFoo) (Js.lit "Foo")
  = Returned (Js.lit "Foo2").
Proof.
  apply (getSpriteName_Foo_gives_Foo2 Demo.keywords Demo.typeKeywords Demo.oneFoo).
  - apply find_truthy_taken. reflexivity.
  - apply find_truthy_free. reflexivity.
  - apply find_truthy_free. reflexivity.
  - apply js_includes_false. reflexivity.
  - apply js_includes_false. reflexivity.
Defined.

(** C8, as the claim has it, fails: a project with the sprites [Foo] and
    [Foo2] has a sprite [Foo], and [getSpriteName] on [Foo] returns [Foo3]
    there; whatever the reserved words are, it does not return [Foo2]. *)
Lemma getSpriteName_Foo_taken_Foo2 :
  nameTaken sprite_name (sprites Demo.twoFoos) (Js.lit "Foo")
  /\ getSpriteName Demo.keywords Demo.typeKeywords (Some Demo.twoFoos) (Js.lit "Foo")
     = Returned (Js.lit "Foo3")
  /\ forall keywords typeKeywords,
       getSpriteName keywords typeKeywords (Some Demo.twoFoos) (Js.lit "Foo")
       <> Returned (Js.lit "Foo2").
Proof.
  split; [|split].
  - apply find_truthy_taken. reflexivity.
  - vm_compute. reflexivity.
  - intros keywords typeKeywords H.
    apply (resolved_name_valid _ _ _) in H.
    apply validateSpriteName_none in H. destruct H as [_ H].
    destruct (H Demo.twoFoos eq_refl) as [F _]. apply F.
    apply find_truthy_taken. reflexivity.
Qed.

(** ** The normaliser *)

(** C9. The four examples of the specification. *)
Theorem normalizeAssetName_examples :
  normalizeAssetName (Js.lit "Hello World!") camel = Returned (Js.lit "helloWorld")
  /\ normalizeAssetName (Js.lit "Hello World!") pascal = Returned (Js.lit "HelloWorld")
  /\ normalizeAssetName (Js.lit "123abc") camel = Returned (Js.lit "abc")
  /\ normalizeAssetName (Js.lit "") camel = Returned (Js.lit "").
Proof. repeat split. Qed.

Lemma upFirst_throws_iff (s : jsstring) : upFirst s = Thrown TypeError <-> s = [].
Proof. destruct s; simpl; split; congruence. Qed.

Lemma upFirst_returns (s : jsstring) :
  s <> [] -> exists r, upFirst s = Returned r.
Proof. destruct s as [|c r]; [congruence | intros _; simpl; eauto]. Qed.

Lemma mapM_upFirst_returns (parts : list jsstring) :
  Forall (fun p => p <> []) parts -> exists rs, mapM upFirst parts = Returned rs.
Proof.
  induction 1 as [|p parts Hp _ IH]; simpl; [eauto|].
  destruct (upFirst_returns Hp) as [r ->]. destruct IH as [rs ->]. simpl. eauto.
Qed.

Lemma filter_nonEmpty (parts : list jsstring) :
  Forall (fun p => p <> []) (filter Js.nonEmpty parts).
Proof.
  apply Forall_forall. intros p Hp. apply filter_In in Hp.
  destruct Hp as [_ Hp]. now destruct p.
Qed.

(** C10. [normalizeAssetName] returns for every input and either style.
    [upFirst] throws on the empty string and on nothing else; the fragments
    it is applied to, those left by the filter, are all non-empty. *)
Theorem normalizeAssetName_total (src : jsstring) (cas : NameCase) :
  (exists r, normalizeAssetName src cas = Returned r)
  /\ Forall (fun p => p <> [])
       (filter Js.nonEmpty (Js.split Js.underscore (cleaned src)))
  /\ forall s, upFirst s = Thrown TypeError <-> s = [].
Proof.
  split; [|split; [apply filter_nonEmpty | apply upFirst_throws_iff]].
  unfold normalizeAssetName.
  pose proof (filter_nonEmpty (Js.split Js.underscore (cleaned src))) as Hparts.
  destruct (filter Js.nonEmpty (Js.split Js.underscore (cleaned src)))
    as [|firstpart otherParts]; [eauto|].
  inversion Hparts as [|? ? Hfirst Hothers]; subst.
  destruct (mapM_upFirst_returns Hothers) as [rs Ers].
  destruct cas.
  - simpl. rewrite Ers. simpl. eauto.
  - destruct (upFirst_returns Hfirst) as [r Er]. rewrite Er. simpl.
    rewrite Ers. simpl. eauto.
Qed.

(** *** The case conversions stay within ASCII

    [toLowerCase] is applied to a string over [[a-zA-Z0-9_]], and
    [toUpperCase] to the first character of a fragment of such a string. *)

Lemma isWord_underscore : Js.isWord Js.underscore = true.
Proof. reflexivity. Qed.

Lemma replaceNonWordRuns_word (inRun : bool) (s : jsstring) :
  wordString (replaceNonWordRuns inRun s).
Proof.
  revert inRun. induction s as [|c r IH]; intros inRun; simpl.
  - constructor.
  - destruct (Js.isWord c) eqn:E.
    + constructor; [exact E | apply IH].
    + destruct inRun; [apply IH|]. constructor; [reflexivity | apply IH].
Qed.

Lemma markUpper_word (s : jsstring) : wordString s -> wordString (markUpper s).
Proof.
  induction 1 as [|c r Hc _ IH]; simpl; [constructor|].
  destruct (Js.isUpper c); simpl; repeat constructor; assumption.
Qed.

Lemma lowered_input_word (src : jsstring) :
  wordString (markUpper (replaceNonWordRuns false src)).
Proof. apply markUpper_word, replaceNonWordRuns_word. Qed.

Lemma lowerChar_word (c : Js.char) : Js.isWord c = true -> Js.isWord (Js.lowerChar c) = true.
Proof.
  unfold Js.lowerChar. destruct (Js.isUpper c) eqn:E; [|trivial]. intros _.
  apply inRange_spec in E. unfold Js.isWord, Js.isLetter.
  assert (Js.isLower (c + 32)%N = true) as ->; [|reflexivity].
  apply inRange_spec. lia.
Qed.

Lemma stripLeadingNonLetters_word (s : jsstring) :
  wordString s -> wordString (stripLeadingNonLetters s).
Proof.
  induction 1 as [|c r Hc Hr IH]; simpl; [constructor|].
  destruct (Js.isLetter c); [now constructor | exact IH].
Qed.

Lemma cleaned_word (src : jsstring) : wordString (cleaned src).
Proof.
  unfold cleaned. apply stripLeadingNonLetters_word.
  unfold Js.toLowerCase. pose proof (lowered_input_word src) as H.
  induction H as [|c r Hc _ IH]; simpl; constructor; [|exact IH].
  now apply lowerChar_word.
Qed.

Lemma splitFrom_chars (sep : Js.char) (s cur p : jsstring) (c : Js.char) :
  In p (Js.splitFrom sep cur s) -> In c p -> In c cur \/ In c s.
Proof.
  revert cur. induction s as [|x r IH]; intros cur; simpl.
  - intros [<- | []] Hc. left. now apply in_rev.
  - destruct (N.eqb x sep).
    + intros [<- | Hp] Hc.
      * left. now apply in_rev.
      * destruct (IH [] Hp Hc) as [[] | Hr]. right. now right.
    + intros Hp Hc. destruct (IH (x :: cur) Hp Hc) as [[<- | Hcur] | Hr]; auto.
Qed.

Lemma upFirst_input_word (src p : jsstring) :
  In p (filter Js.nonEmpty (Js.split Js.underscore (cleaned src))) -> wordString p.
Proof.
  intros Hp. apply filter_In in Hp. destruct Hp as [Hp _].
  apply Forall_forall. intros c Hc.
  unfold Js.split in Hp. destruct (splitFrom_chars _ _ _ _ _ Hp Hc) as [[] | Hin].
  pose proof (cleaned_word src) as Hw. unfold wordString in Hw.
  rewrite Forall_forall in Hw. now apply Hw.
Qed.

(** * Further properties *)

(** ** Candidates of the resolver *)

Lemma digits_inj (u v : Decimal.uint) : Js.digits u = Js.digits v -> u = v.
Proof.
  revert v. induction u as [|u IH|u IH|u IH|u IH|u IH|u IH|u IH|u IH|u IH|u IH];
    intros [|v|v|v|v|v|v|v|v|v|v]; simpl; intros H;
    try discriminate; try reflexivity;
    injection H as H; f_equal; now apply IH.
Qed.

Lemma digits_are_digits (u : Decimal.uint) :
  Forall (fun c => Js.isDigit c = true) (Js.digits u).
Proof. induction u; simpl; constructor; trivial. Qed.

Lemma ofNumber_inj (i j : N) : Js.ofNumber i = Js.ofNumber j -> i = j.
Proof.
  unfold Js.ofNumber. intros H. apply digits_inj in H.
  now apply DecimalN.Unsigned.to_uint_inj.
Qed.

Lemma ofNumber_nonempty (i : N) : Js.ofNumber i <> [].
Proof.
  unfold Js.ofNumber. destruct i as [|p]; [discriminate|]. simpl.
  pose proof (DecimalPos.Unsigned.to_uint_nonnil p) as H.
  destruct (Pos.to_uint p); simpl; congruence.
Qed.

Lemma candidate_inj (base : jsstring) (i j : N) :
  candidate base i = candidate base j -> i = j.
Proof.
  unfold candidate.
  destruct (N.eqb_spec i 1) as [-> | Hi], (N.eqb_spec j 1) as [-> | Hj];
    intros H; [reflexivity | exfalso | exfalso |].
  - rewrite <- (app_nil_r base) in H at 1. apply app_inv_head in H.
    symmetry in H. now apply ofNumber_nonempty in H.
  - rewrite <- (app_nil_r base) in H at 2. apply app_inv_head in H.
    now apply ofNumber_nonempty in H.
  - apply app_inv_head in H. now apply ofNumber_inj.
Qed.

Lemma attemptsFrom_In (i j : N) (k : nat) :
  In j (attemptsFrom i k) <-> (i <= j < i + N.of_nat k)%N.
Proof.
  unfold attemptsFrom. rewrite in_map_iff. split.
  - intros (n & <- & Hn). apply in_seq in Hn. lia.
  - intros H. exists (N.to_nat j). split; [apply N2Nat.id|]. apply in_seq. lia.
Qed.

Lemma attemptsFrom_NoDup (i : N) (k : nat) : NoDup (attemptsFrom i k).
Proof.
  unfold attemptsFrom. generalize (N.to_nat i). intros n. revert n.
  induction k as [|k IH]; intros n; simpl; constructor; [|apply IH].
  rewrite in_map_iff. intros (m & E & Hm). apply in_seq in Hm. lia.
Qed.

Lemma ofNumber_short (i : N) : (1 <= i <= 10001)%N -> length (Js.ofNumber i) <= 5.
Proof.
  intros Hi.
  assert (forallb (fun j => Nat.leb (length (Js.ofNumber j)) 5)
            (attemptsFrom 1 10001) = true) as Hall by (vm_compute; reflexivity).
  rewrite forallb_forall in Hall. apply Nat.leb_le. apply Hall.
  apply attemptsFrom_In. change (N.of_nat 10001) with 10001%N. lia.
Qed.

(** ** The resolver on a pure validator *)

Section PureResolver.

Variable base : jsstring.
Variable p : jsstring -> bool.

Lemma getValidName_from_pure_returned (k : nat) (i : N) (name : jsstring) :
  (i + N.of_nat k = 10001)%N ->
  fst (getValidName_from base (pureCallback p) i tt) = Returned name
  <-> exists j, (i <= j <= 10001)%N /\ name = candidate base j
        /\ p (candidate base j) = true
        /\ forall m, (i <= m < j)%N -> p (candidate base m) = false.
Proof.
  revert i. induction k as [|k IH]; intros i Hi;
    rewrite getValidName_from_step; unfold pureCallback at 1;
    destruct (p (candidate base i)) eqn:Ep; simpl.
  - split.
    + intros E. injection E as <-. exists i. repeat split; trivial; lia.
    + intros (j & Hj & -> & Hp & Hmin). replace j with i by lia. reflexivity.
  - assert (N.ltb 10000 i = true) as -> by (apply N.ltb_lt; lia). simpl. split.
    + discriminate.
    + intros (j & Hj & _ & Hp & _). replace j with i in Hp by lia. congruence.
  - split.
    + intros E. injection E as <-. exists i. repeat split; trivial; lia.
    + intros (j & Hj & -> & Hp & Hmin).
      destruct (N.eq_dec i j) as [-> | Hne]; [reflexivity|].
      rewrite Hmin in Ep by lia. discriminate.
  - assert (N.ltb 10000 i = false) as -> by (apply N.ltb_ge; lia).
    rewrite IH by lia. split.
    + intros (j & Hj & Hn & Hp & Hmin). exists j. repeat split; trivial; try lia.
      intros m Hm. destruct (N.eq_dec m i) as [-> | Hne]; [exact Ep|].
      apply Hmin. lia.
    + intros (j & Hj & Hn & Hp & Hmin).
      assert (i <> j) by (intros ->; congruence).
      exists j. repeat split; trivial; try lia. intros m Hm. apply Hmin. lia.
Qed.

Lemma getValidName_from_pure_thrown (k : nat) (i : N) (e : error) :
  (i + N.of_nat k = 10001)%N ->
  fst (getValidName_from base (pureCallback p) i tt) = Thrown e
  <-> e = loopError base
      /\ forall m, (i <= m <= 10001)%N -> p (candidate base m) = false.
Proof.
  revert i. induction k as [|k IH]; intros i Hi;
    rewrite getValidName_from_step; unfold pureCallback at 1;
    destruct (p (candidate base i)) eqn:Ep; simpl.
  - split; [discriminate|]. intros [_ H]. rewrite H in Ep by lia. discriminate.
  - assert (N.ltb 10000 i = true) as -> by (apply N.ltb_lt; lia). simpl. split.
    + intros E. injection E as <-. split; [reflexivity|].
      intros m Hm. replace m with i by lia. exact Ep.
    + now intros [-> _].
  - split; [discriminate|]. intros [_ H]. rewrite H in Ep by lia. discriminate.
  - assert (N.ltb 10000 i = false) as -> by (apply N.ltb_ge; lia).
    rewrite IH by lia. split; intros [He H]; (split; [exact He|]).
    + intros m Hm. destruct (N.eq_dec m i) as [-> | Hne]; [exact Ep|].
      apply H. lia.
    + intros m Hm. apply H. lia.
Qed.

End PureResolver.

(** X1. On a validator without effects, [getValidName] returns a name
    exactly when it is the first candidate, among those numbered 1 to 10001,
    that the validator accepts. *)
Theorem getValidName_returns_first_accepted
  (base : jsstring) (p : jsstring -> bool) (name : jsstring) :
  fst (getValidName base (pureCallback p) tt) = Returned name
  <-> exists i, (1 <= i <= 10001)%N /\ name = candidate base i
        /\ p (candidate base i) = true
        /\ forall m, (1 <= m < i)%N -> p (candidate base m) = false.
Proof.
  unfold getValidName. apply (getValidName_from_pure_returned base p 10000).
  reflexivity.
Qed.

(** X2. On a validator without effects, [getValidName] throws exactly when
    the validator rejects each of the candidates numbered 1 to 10001, and
    the error is then the one of the loop. *)
Theorem getValidName_throws_iff_all_rejected
  (base : jsstring) (p : jsstring -> bool) (e : error) :
  fst (getValidName base (pureCallback p) tt) = Thrown e
  <-> e = loopError base
      /\ forall i, (1 <= i <= 10001)%N -> p (candidate base i) = false.
Proof.
  unfold getValidName. apply (getValidName_from_pure_thrown base p 10000).
  reflexivity.
Qed.

(** X3. Two candidates are the same name only when they have the same
    number: the loop never tries a name twice. *)
Theorem candidates_pairwise_distinct (base : jsstring) (i j : N) :
  candidate base i = candidate base j <-> i = j.
Proof. split; [apply candidate_inj | now intros ->]. Qed.

Section ResolverShape.

Context {S : Type}.
Variable base : jsstring.
Variable isValid : jsstring -> S -> bool * S.

Lemma getValidName_from_is_candidate (k : nat) (i : N) (s : S) (name : jsstring) :
  (i + N.of_nat k = 10001)%N ->
  fst (getValidName_from base isValid i s) = Returned name ->
  exists j, (i <= j <= 10001)%N /\ name = candidate base j.
Proof.
  revert i s. induction k as [|k IH]; intros i s Hi;
    rewrite getValidName_from_step;
    destruct (isValid (candidate base i) s) as [[|] s']; simpl.
  - intros E. injection E as <-. exists i. split; [lia | reflexivity].
  - assert (N.ltb 10000 i = true) as -> by (apply N.ltb_lt; lia). discriminate.
  - intros E. injection E as <-. exists i. split; [lia | reflexivity].
  - assert (N.ltb 10000 i = false) as -> by (apply N.ltb_ge; lia).
    intros E. apply IH in E; [|lia]. destruct E as (j & Hj & ->).
    exists j. split; [lia | reflexivity].
Qed.

End ResolverShape.

Lemma candidate_shape (base : jsstring) (j : N) :
  (1 <= j <= 10001)%N ->
  exists suffix, candidate base j = base ++ suffix /\ length suffix <= 5
    /\ Forall (fun c => Js.isDigit c = true) suffix
    /\ (suffix = [] <-> j = 1%N).
Proof.
  intros Hj. unfold candidate. destruct (N.eqb_spec j 1) as [-> | Hne].
  - exists []. rewrite app_nil_r. repeat split; simpl; trivial; lia.
  - exists (Js.ofNumber j). repeat split.
    + now apply ofNumber_short.
    + apply digits_are_digits.
    + intros E. now apply ofNumber_nonempty in E.
    + intros E. contradiction.
Qed.

(** X4. Whatever the callback does, a name that [getValidName] returns is
    [base] followed by at most five decimal digits: [base] itself or [base]
    with a number from 2 to 10001. *)
Theorem getValidName_result_shape {S : Type} (base : jsstring)
  (isValid : jsstring -> S -> bool * S) (s : S) (name : jsstring) :
  fst (getValidName base isValid s) = Returned name ->
  (name = base
   \/ exists i, (2 <= i <= 10001)%N /\ name = base ++ Js.ofNumber i)
  /\ length name <= length base + 5.
Proof.
  intros H. unfold getValidName in H.
  apply (getValidName_from_is_candidate base isValid 10000) in H; [|reflexivity].
  destruct H as (j & Hj & ->). split.
  - unfold candidate. destruct (N.eqb_spec j 1) as [-> | Hne]; [now left|].
    right. exists j. split; [lia | reflexivity].
  - destruct (candidate_shape base Hj) as (suffix & -> & Hlen & _).
    rewrite length_app. lia.
Qed.

Lemma getValidName_result_shape_witness :
  (Js.lit "Foo2" = Js.lit "Foo"
   \/ exists i, (2 <= i <= 10001)%N /\ Js.lit "Foo2" = Js.lit "Foo" ++ Js.ofNumber i)
  /\ length (Js.lit "Foo2") <= length (Js.lit "Foo") + 5.
Proof.
  apply (@getValidName_result_shape N (Js.lit "Foo")
           (counted (fun n => negb (Js.eqb n (Js.lit "Foo")))) 0%N (Js.lit "Foo2")).
  vm_compute. reflexivity.
Defined.

Section CountedResolver.

Variable base : jsstring.
Variable p : jsstring -> bool.

Lemma getValidName_from_counted (k : nat) (i calls : N) :
  (i + N.of_nat k = 10001)%N ->
  exists j, (i <= j <= 10001)%N
    /\ snd (getValidName_from base (counted p) i calls) = (calls + (j + 1 - i))%N
    /\ (fst (getValidName_from base (counted p) i calls) = Returned (candidate base j)
        \/ fst (getValidName_from base (counted p) i calls) = Thrown (loopError base)
           /\ j = 10001%N).
Proof.
  revert i calls. induction k as [|k IH]; intros i calls Hi;
    rewrite getValidName_from_step; unfold counted at 1 3 5;
    destruct (p (candidate base i)) eqn:Ep; simpl.
  - exists i. repeat split; [lia | lia | lia | now left].
  - assert (N.ltb 10000 i = true) as -> by (apply N.ltb_lt; lia). simpl.
    exists i. repeat split; [lia | lia | lia |]. right. split; [reflexivity | lia].
  - exists i. repeat split; [lia | lia | lia | now left].
  - assert (N.ltb 10000 i = false) as -> by (apply N.ltb_ge; lia).
    destruct (IH (i + 1)%N (calls + 1)%N) as (j & Hj & Hs & Hf); [lia|].
    exists j. repeat split; [lia | lia | rewrite Hs; lia | exact Hf].
Qed.

End CountedResolver.

(** X5. Whatever the validator answers, [getValidName] calls it at least
    once and at most 10001 times: as many times as the number of the
    candidate it returns, and 10001 times when it throws. *)
Theorem getValidName_call_count (base : jsstring) (p : jsstring -> bool) (calls : N) :
  exists n, (1 <= n <= 10001)%N
    /\ snd (getValidName base (counted p) calls) = (calls + n)%N
    /\ (fst (getValidName base (counted p) calls) = Returned (candidate base n)
        \/ fst (getValidName base (counted p) calls) = Thrown (loopError base)
           /\ n = 10001%N).
Proof.
  unfold getValidName.
  destruct (getValidName_from_counted base p 10000 1%N calls) as (j & Hj & Hs & Hf);
    [reflexivity|].
  exists j. split; [lia|]. split; [rewrite Hs; lia | exact Hf].
Qed.

(** ** The shape of normalised names *)

Ltac char_props :=
  unfold isInitial, isLowerWord, isLowerAlnum, isAlnum, isNameStart, isNameChar,
    Js.isWord, Js.isLetter, Js.isLower, Js.isUpper, Js.isDigit, Js.isCJK,
    Js.isUnderscore, Js.underscore, Js.inRange in *;
  rewrite ?orb_true_iff, ?orb_false_iff, ?andb_true_iff, ?andb_false_iff,
    ?N.leb_le, ?N.leb_gt, ?N.eqb_eq, ?N.eqb_neq in *;
  lia.

Lemma lowerChar_lowerWord (c : Js.char) :
  Js.isWord c = true -> isLowerWord (Js.lowerChar c) = true.
Proof.
  unfold Js.lowerChar. destruct (Js.isUpper c) eqn:E; intros H; char_props.
Qed.

Lemma upperChar_alnum (c : Js.char) :
  isLowerAlnum c = true -> isAlnum (Js.upperChar c) = true.
Proof.
  unfold Js.upperChar. destruct (Js.isLower c) eqn:E; intros H; char_props.
Qed.

Lemma upperChar_initial (c : Js.char) :
  Js.isLower c = true -> Js.isUpper (Js.upperChar c) = true.
Proof.
  unfold Js.upperChar. intros H. rewrite H. char_props.
Qed.

Lemma lowerAlnum_alnum (c : Js.char) : isLowerAlnum c = true -> isAlnum c = true.
Proof. intros H. char_props. Qed.

Lemma lowerWord_letter_lower (c : Js.char) :
  isLowerWord c = true -> Js.isLetter c = true -> Js.isLower c = true.
Proof. intros H L. char_props. Qed.

Lemma lowerWord_not_underscore (c : Js.char) :
  isLowerWord c = true -> c <> Js.underscore -> isLowerAlnum c = true.
Proof. intros H L. char_props. Qed.

Lemma lower_not_underscore (c : Js.char) : Js.isLower c = true -> c <> Js.underscore.
Proof. intros H. char_props. Qed.

Lemma alnum_nameChar (c : Js.char) : isAlnum c = true -> isNameChar c = true.
Proof. intros H. char_props. Qed.

Lemma digit_nameChar (c : Js.char) : Js.isDigit c = true -> isNameChar c = true.
Proof. intros H. char_props. Qed.

Lemma initial_nameStart (cas : NameCase) (c : Js.char) :
  isInitial cas c = true -> isNameStart c = true.
Proof. destruct cas; intros H; char_props. Qed.

Lemma initial_alnum (cas : NameCase) (c : Js.char) :
  isInitial cas c = true -> isAlnum c = true.
Proof. destruct cas; intros H; char_props. Qed.

Lemma stripLeadingNonLetters_head (s : jsstring) :
  stripLeadingNonLetters s = []
  \/ exists c r, stripLeadingNonLetters s = c :: r /\ Js.isLetter c = true.
Proof.
  induction s as [|c r IH]; simpl; [now left|].
  destruct (Js.isLetter c) eqn:E; [|exact IH]. right. now exists c, r.
Qed.

Lemma stripLeadingNonLetters_Forall (P : Js.char -> Prop) (s : jsstring) :
  Forall P s -> Forall P (stripLeadingNonLetters s).
Proof.
  induction 1 as [|c r Hc Hr IH]; simpl; [constructor|].
  destruct (Js.isLetter c); [now constructor | exact IH].
Qed.

Lemma cleaned_lowerWord (src : jsstring) :
  Forall (fun c => isLowerWord c = true) (cleaned src).
Proof.
  unfold cleaned. apply stripLeadingNonLetters_Forall.
  unfold Js.toLowerCase. pose proof (lowered_input_word src) as H.
  induction H as [|c r Hc _ IH]; simpl; constructor; [|exact IH].
  now apply lowerChar_lowerWord.
Qed.

(** The cleaned source is empty or begins with a lower-case letter. *)
Lemma cleaned_head (src : jsstring) :
  cleaned src = []
  \/ exists c r, cleaned src = c :: r /\ Js.isLower c = true.
Proof.
  pose proof (cleaned_lowerWord src) as Hw. unfold cleaned in *.
  destruct (stripLeadingNonLetters_head
              (Js.toLowerCase (markUpper (replaceNonWordRuns false src))))
    as [E | (c & r & E & Hc)]; [now left|].
  right. exists c, r. split; [exact E|]. rewrite E in Hw.
  inversion Hw; subst. now apply lowerWord_letter_lower.
Qed.

(** Fragments of a split: their characters are characters of the string
    other than the separator, and the first fragment begins with what was
    read before. *)
Lemma splitFrom_Forall (P : Js.char -> Prop) (sep : Js.char) (s cur p : jsstring) :
  Forall P cur -> Forall (fun c => c <> sep -> P c) s ->
  In p (Js.splitFrom sep cur s) -> Forall P p.
Proof.
  intros Hcur Hs. revert cur Hcur.
  induction Hs as [|x r Hx Hr IH]; intros cur Hcur; simpl.
  - intros [<- | []]. now apply Forall_rev.
  - destruct (N.eqb_spec x sep) as [-> | Hne].
    + intros [<- | Hp]; [now apply Forall_rev | now apply (IH [])].
    + intros Hp. apply (IH (x :: cur)); [|exact Hp]. constructor; auto.
Qed.

Lemma splitFrom_first (sep : Js.char) (s cur : jsstring) :
  exists w rest, Js.splitFrom sep cur s = (rev cur ++ w) :: rest.
Proof.
  revert cur. induction s as [|x r IH]; intros cur; simpl.
  - exists [], []. now rewrite app_nil_r.
  - destruct (N.eqb x sep).
    + exists [], (Js.splitFrom sep [] r). now rewrite app_nil_r.
    + destruct (IH (x :: cur)) as (w & rest & ->). exists (x :: w), rest.
      simpl. now rewrite <- app_assoc.
Qed.

Lemma fragments_nonEmpty (src : jsstring) : Forall (fun p => p <> []) (fragments src).
Proof. apply filter_nonEmpty. Qed.

Lemma fragments_lowerAlnum (src : jsstring) :
  Forall (Forall (fun c => isLowerAlnum c = true)) (fragments src).
Proof.
  apply Forall_forall. intros p Hp. unfold fragments in Hp.
  apply filter_In in Hp. destruct Hp as [Hp _]. unfold Js.split in Hp.
  apply splitFrom_Forall with (P := fun c => isLowerAlnum c = true) in Hp;
    [exact Hp | constructor |].
  eapply Forall_impl; [|apply cleaned_lowerWord].
  intros c Hc Hne. now apply lowerWord_not_underscore.
Qed.

(** The fragments are none when the cleaned source is empty; otherwise the
    first one begins with the lower-case letter the cleaned source begins
    with. *)
Lemma fragments_head (src : jsstring) :
  (cleaned src = [] /\ fragments src = [])
  \/ exists c w others, Js.isLower c = true /\ fragments src = (c :: w) :: others.
Proof.
  unfold fragments, Js.split.
  destruct (cleaned_head src) as [-> | (c & r & -> & Hc)]; [now left|].
  right. simpl. pose proof (lower_not_underscore Hc) as Hne.
  apply N.eqb_neq in Hne. rewrite Hne.
  destruct (splitFrom_first Js.underscore r [c]) as (w & rest & ->).
  simpl. now exists c, w, (filter Js.nonEmpty rest).
Qed.

Lemma mapM_upFirst_capitalize (parts : list jsstring) :
  Forall (fun p => p <> []) parts ->
  mapM upFirst parts = Returned (map capitalize parts).
Proof.
  induction 1 as [|p parts Hp _ IH]; simpl; [reflexivity|].
  destruct p as [|c t]; [congruence|]. simpl. now rewrite IH.
Qed.

(** [normalizeAssetName] in one expression. *)
Lemma normalizeAssetName_closed (src : jsstring) (cas : NameCase) :
  normalizeAssetName src cas
  = Returned match fragments src with
             | [] => []
             | firstpart :: otherParts =>
                 firstn 20 (styled cas firstpart
                            ++ List.concat (map capitalize otherParts))
             end.
Proof.
  unfold normalizeAssetName.
  change (filter Js.nonEmpty (Js.split Js.underscore (cleaned src)))
    with (fragments src).
  pose proof (fragments_nonEmpty src) as Hne.
  destruct (fragments src) as [|firstpart otherParts]; [reflexivity|].
  inversion Hne as [|? ? Hfirst Hothers]; subst.
  rewrite (mapM_upFirst_capitalize Hothers).
  destruct cas; simpl; [reflexivity|].
  destruct firstpart; [congruence | reflexivity].
Qed.

Lemma Forall_firstn_keep {A} (P : A -> Prop) (n : nat) (l : list A) :
  Forall P l -> Forall P (firstn n l).
Proof.
  intros H. revert n. induction H as [|x l Hx _ IH]; intros [|n]; simpl;
    constructor; auto.
Qed.

Lemma capitalize_alnum (p : jsstring) :
  Forall (fun c => isLowerAlnum c = true) p ->
  Forall (fun c => isAlnum c = true) (capitalize p).
Proof.
  intros [|c t Hc Ht]; simpl; constructor.
  - now apply upperChar_alnum.
  - eapply Forall_impl; [|exact Ht]. intros a. apply lowerAlnum_alnum.
Qed.

Lemma capitalized_alnum (parts : list jsstring) :
  Forall (Forall (fun c => isLowerAlnum c = true)) parts ->
  Forall (fun c => isAlnum c = true) (List.concat (map capitalize parts)).
Proof.
  intros H. apply Forall_concat. apply Forall_map.
  eapply Forall_impl; [|exact H]. intros p. apply capitalize_alnum.
Qed.

(** The result of [normalizeAssetName], in the two cases of the fragments. *)
Lemma normalizeAssetName_cases (src : jsstring) (cas : NameCase) :
  (cleaned src = [] /\ normalizeAssetName src cas = Returned [])
  \/ exists c t, normalizeAssetName src cas = Returned (c :: t)
       /\ isInitial cas c = true
       /\ Forall (fun a => isAlnum a = true) t
       /\ length (c :: t) <= 20.
Proof.
  rewrite normalizeAssetName_closed.
  pose proof (fragments_lowerAlnum src) as Hl.
  destruct (fragments_head src) as [[Hc ->] | (c & w & others & Hc & E)];
    [now left|].
  right. rewrite E in *. inversion Hl as [|? ? Hfirst Hothers]; subst.
  inversion Hfirst as [|? ? _ Hw]; subst.
  assert (Forall (fun a => isAlnum a = true)
            (w ++ List.concat (map capitalize others))) as Hrest.
  { apply Forall_app. split; [|now apply capitalized_alnum].
    eapply Forall_impl; [|exact Hw]. intros a. apply lowerAlnum_alnum. }
  exists (match cas with camel => c | pascal => Js.upperChar c end),
    (firstn 19 (w ++ List.concat (map capitalize others))).
  split; [now destruct cas|]. split; [|split].
  - destruct cas; simpl; [exact Hc | now apply upperChar_initial].
  - now apply Forall_firstn_keep.
  - pose proof (firstn_le_length 19 (w ++ List.concat (map capitalize others))).
    cbn [length]. lia.
Qed.

(** X6. [normalizeAssetName] returns, for every source and style, a string
    of at most 20 characters, all of them ASCII letters or digits, that is
    empty or begins with a letter: lower-case for camel, upper-case for
    pascal. *)
Theorem normalizeAssetName_result_form (src : jsstring) (cas : NameCase) :
  exists r, normalizeAssetName src cas = Returned r
    /\ length r <= 20
    /\ Forall (fun c => isAlnum c = true) r
    /\ (r = [] \/ exists c t, r = c :: t /\ isInitial cas c = true).
Proof.
  destruct (normalizeAssetName_cases src cas)
    as [[_ E] | (c & t & E & Hc & Ht & Hlen)].
  - exists []. repeat split; [exact E | simpl; lia | constructor | now left].
  - exists (c :: t). repeat split; trivial.
    + constructor; [now apply (initial_alnum cas) | exact Ht].
    + right. now exists c, t.
Qed.

Lemma initial_name_regex (cas : NameCase) (c : Js.char) (t : jsstring) :
  isInitial cas c = true -> Forall (fun a => isAlnum a = true) t ->
  nameRegexTest (c :: t) = true.
Proof.
  intros Hc Ht. simpl. rewrite (initial_nameStart cas c Hc). simpl.
  apply forallb_forall. rewrite Forall_forall in Ht.
  intros a Ha. apply alnum_nameChar. now apply Ht.
Qed.

(** X7. A non-empty result of [normalizeAssetName] matches the grammar of
    names, and [validateAssetName] can only object to it as a reserved
    word: it answers [null], or the keyword conflict. *)
Theorem normalized_name_passes_grammar
  (keywords typeKeywords : list jsstring) (src r : jsstring) (cas : NameCase) :
  normalizeAssetName src cas = Returned r -> r <> [] ->
  matchesNameGrammar r
  /\ (validateAssetName keywords typeKeywords r = None
      \/ validateAssetName keywords typeKeywords r = Some Msg.keywordConflict).
Proof.
  intros E Hne.
  destruct (normalizeAssetName_cases src cas)
    as [[_ E'] | (c & t & E' & Hc & Ht & Hlen)]; rewrite E' in E;
    injection E as <-; [congruence|].
  pose proof (initial_name_regex cas c Hc Ht) as Hre.
  split; [now apply nameRegexTest_spec|].
  unfold validateAssetName. simpl Js.eqb. cbv iota.
  assert (Nat.ltb 100 (length (c :: t)) = false) as -> by (apply Nat.ltb_ge; lia).
  rewrite Hre. simpl negb. cbv iota.
  destruct (Js.includes typeKeywords (c :: t)); [now right|].
  destruct (Js.includes keywords (c :: t)); [now right | now left].
Qed.

Lemma normalized_name_passes_grammar_witness :
  matchesNameGrammar (Js.lit "if")
  /\ (validateAssetName Demo.keywords Demo.typeKeywords (Js.lit "if") = None
      \/ validateAssetName Demo.keywords Demo.typeKeywords (Js.lit "if")
         = Some Msg.keywordConflict).
Proof.
  apply (normalized_name_passes_grammar Demo.keywords Demo.typeKeywords
           (Js.lit "if") (r := Js.lit "if") camel).
  - reflexivity.
  - discriminate.
Defined.

(** *** Sources without an ASCII letter *)

Lemma isLetter_isWord (c : Js.char) : Js.isLetter c = true -> Js.isWord c = true.
Proof. unfold Js.isWord. now intros ->. Qed.

Lemma replaceNonWordRuns_letters (inRun : bool) (s : jsstring) :
  existsb Js.isLetter (replaceNonWordRuns inRun s) = existsb Js.isLetter s.
Proof.
  revert inRun. induction s as [|c r IH]; intros inRun; simpl; [reflexivity|].
  destruct (Js.isWord c) eqn:Ew.
  - simpl. now rewrite IH.
  - assert (Js.isLetter c = false) as ->.
    { destruct (Js.isLetter c) eqn:El; [|reflexivity].
      apply isLetter_isWord in El. congruence. }
    destruct inRun; simpl; apply IH.
Qed.

Lemma markUpper_letters (s : jsstring) :
  existsb Js.isLetter (markUpper s) = existsb Js.isLetter s.
Proof.
  induction s as [|c r IH]; simpl; [reflexivity|].
  destruct (Js.isUpper c); simpl; now rewrite <- IH.
Qed.

Lemma lowerChar_letter (c : Js.char) : Js.isLetter (Js.lowerChar c) = Js.isLetter c.
Proof.
  unfold Js.lowerChar. destruct (Js.isUpper c) eqn:E; [|reflexivity].
  assert (Js.isLetter c = true) as -> by char_props.
  char_props.
Qed.

Lemma toLowerCase_letters (s : jsstring) :
  existsb Js.isLetter (Js.toLowerCase s) = existsb Js.isLetter s.
Proof.
  induction s as [|c r IH]; simpl; [reflexivity|].
  now rewrite lowerChar_letter, IH.
Qed.

Lemma stripLeadingNonLetters_nil (s : jsstring) :
  stripLeadingNonLetters s = [] <-> existsb Js.isLetter s = false.
Proof.
  induction s as [|c r IH]; simpl; [tauto|].
  destruct (Js.isLetter c); simpl; [split; discriminate | exact IH].
Qed.

Lemma cleaned_nil (src : jsstring) :
  cleaned src = [] <-> Forall (fun c => Js.isLetter c = false) src.
Proof.
  unfold cleaned.
  rewrite stripLeadingNonLetters_nil, toLowerCase_letters, markUpper_letters,
    replaceNonWordRuns_letters.
  rewrite Forall_forall. split.
  - intros H c Hc. destruct (Js.isLetter c) eqn:E; [|reflexivity].
    assert (existsb Js.isLetter src = true) as F
        by (apply existsb_exists; now exists c).
    congruence.
  - intros H. destruct (existsb Js.isLetter src) eqn:E; [|reflexivity].
    apply existsb_exists in E. destruct E as (c & Hc & Hl).
    rewrite (H c Hc) in Hl. discriminate.
Qed.

(** X8. [normalizeAssetName] returns the empty string exactly when the
    source has no ASCII letter (an empty source, digits, punctuation, CJK
    text). *)
Theorem normalizeAssetName_empty_iff (src : jsstring) (cas : NameCase) :
  normalizeAssetName src cas = Returned []
  <-> Forall (fun c => Js.isLetter c = false) src.
Proof.
  rewrite <- cleaned_nil.
  destruct (normalizeAssetName_cases src cas)
    as [[Hc E] | (c & t & E & _)]; rewrite E.
  - tauto.
  - split; [discriminate|]. intros Hc.
    destruct (cleaned_head src) as [_ | (c' & r' & Hc' & Hl)].
    + rewrite normalizeAssetName_closed in E.
      destruct (fragments_head src) as [[_ F] | (a & w & o & _ & F)].
      * rewrite F in E. discriminate.
      * unfold fragments in F. rewrite Hc in F. discriminate.
    + congruence.
Qed.

(** X9. The pascal result is the camel result with its first character in
    upper case. *)
Theorem normalizeAssetName_pascal_of_camel (src : jsstring) :
  normalizeAssetName src pascal
  = (r <- normalizeAssetName src camel ;; Returned (capitalize r)).
Proof.
  rewrite !normalizeAssetName_closed. simpl bind.
  pose proof (fragments_nonEmpty src) as Hne.
  destruct (fragments src) as [|[|c w] others]; [reflexivity | | reflexivity].
  inversion Hne; congruence.
Qed.

(** *** Names that are already normal *)

Lemma replaceNonWordRuns_word_id (inRun : bool) (s : jsstring) :
  wordString s -> replaceNonWordRuns inRun s = s.
Proof.
  intros H. revert inRun.
  induction H as [|c r Hc _ IH]; intros inRun; simpl; [reflexivity|].
  now rewrite Hc, IH.
Qed.

Lemma alnum_word (c : Js.char) : isAlnum c = true -> Js.isWord c = true.
Proof. intros H. char_props. Qed.

Lemma alnum_not_underscore (c : Js.char) : isAlnum c = true -> c <> Js.underscore.
Proof. intros H. char_props. Qed.

Lemma upper_lowered (c : Js.char) :
  Js.isUpper c = true ->
  Js.lowerChar c <> Js.underscore /\ Js.upperChar (Js.lowerChar c) = c.
Proof.
  intros H. unfold Js.lowerChar. rewrite H. unfold Js.upperChar.
  assert (Js.isLower (c + 32)%N = true) as -> by char_props.
  split; [char_props|]. unfold Js.isUpper, Js.inRange in H.
  apply andb_true_iff in H. destruct H as [H1 H2]. apply N.leb_le in H1. lia.
Qed.

Lemma nonEmpty_rev_app (cur w : jsstring) :
  cur <> [] -> Js.nonEmpty (rev cur ++ w) = true.
Proof.
  intros H. destruct (rev cur ++ w) eqn:E; [|reflexivity].
  apply app_eq_nil in E. destruct E as [E _].
  apply (f_equal (@rev Js.char)) in E. rewrite rev_involutive in E. contradiction.
Qed.

(** Splitting the marked and lowered text again and capitalising the
    fragments gives the text back. *)
Lemma refragment (t cur : jsstring) :
  Forall (fun c => isAlnum c = true) t -> cur <> [] ->
  exists w rest,
    filter Js.nonEmpty (Js.splitFrom Js.underscore cur (Js.toLowerCase (markUpper t)))
    = (rev cur ++ w) :: rest
    /\ w ++ List.concat (map capitalize rest) = t.
Proof.
  intros Ht. revert cur. induction Ht as [|x t Hx _ IH]; intros cur Hcur.
  - exists [], []. simpl. rewrite app_nil_r.
    pose proof (nonEmpty_rev_app [] Hcur) as Hn. rewrite app_nil_r in Hn.
    now rewrite Hn.
  - simpl markUpper. destruct (Js.isUpper x) eqn:Eu.
    + destruct (@upper_lowered x Eu) as [Hne Hup].
      cbn [app Js.toLowerCase map Js.splitFrom].
      change (Js.lowerChar Js.underscore) with Js.underscore.
      rewrite N.eqb_refl. apply N.eqb_neq in Hne. fold (Js.toLowerCase (markUpper t)).
      rewrite Hne. cbn [filter].
      pose proof (nonEmpty_rev_app [] Hcur) as Hn. rewrite app_nil_r in Hn.
      rewrite Hn.
      destruct (IH [Js.lowerChar x]) as (w & rest & E & Hj); [discriminate|].
      rewrite E. exists [], ((rev [Js.lowerChar x] ++ w) :: rest).
      split; [now rewrite app_nil_r|].
      simpl. now rewrite Hup, Hj.
    + cbn [app Js.toLowerCase map Js.splitFrom].
      fold (Js.toLowerCase (markUpper t)).
      assert (Js.lowerChar x = x) as -> by (unfold Js.lowerChar; now rewrite Eu).
      pose proof (@alnum_not_underscore x Hx) as Hne. apply N.eqb_neq in Hne.
      rewrite Hne.
      destruct (IH (x :: cur)) as (w & rest & E & Hj); [discriminate|].
      rewrite E. exists (x :: w), rest. split.
      * simpl. now rewrite <- app_assoc.
      * simpl. now rewrite Hj.
Qed.

Lemma normalizeAssetName_on_normal (cas : NameCase) (c : Js.char) (t : jsstring) :
  isInitial cas c = true -> Forall (fun a => isAlnum a = true) t ->
  normalizeAssetName (c :: t) cas = Returned (firstn 20 (c :: t)).
Proof.
  intros Hc Ht. rewrite normalizeAssetName_closed.
  assert (wordString (c :: t)) as Hw.
  { constructor; [apply alnum_word; now apply (initial_alnum cas)|].
    eapply Forall_impl; [|exact Ht]. intros a. apply alnum_word. }
  assert (exists w rest,
             fragments (c :: t) = (Js.lowerChar c :: w) :: rest
             /\ w ++ List.concat (map capitalize rest) = t) as (w & rest & E & Hj).
  { unfold fragments, cleaned, Js.split.
    rewrite (@replaceNonWordRuns_word_id false _ Hw).
    destruct cas; simpl in Hc.
    - assert (Js.isUpper c = false) as Eu by char_props.
      simpl markUpper. rewrite Eu. cbn [app Js.toLowerCase map].
      fold (Js.toLowerCase (markUpper t)).
      assert (Js.lowerChar c = c) as -> by (unfold Js.lowerChar; now rewrite Eu).
      cbn [stripLeadingNonLetters].
      assert (Js.isLetter c = true) as -> by char_props.
      cbn [Js.splitFrom].
      assert (N.eqb c Js.underscore = false) as -> by (apply N.eqb_neq; char_props).
      destruct (@refragment t [c] Ht) as (w & rest & E & Hj); [discriminate|].
      exists w, rest. now split.
    - simpl markUpper. rewrite Hc. cbn [app Js.toLowerCase map].
      fold (Js.toLowerCase (markUpper t)).
      change (Js.lowerChar Js.underscore) with Js.underscore.
      cbn [stripLeadingNonLetters].
      change (Js.isLetter Js.underscore) with false. cbv iota.
      assert (Js.isLetter (Js.lowerChar c) = true) as ->
          by (rewrite lowerChar_letter; char_props).
      cbn [Js.splitFrom]. destruct (@upper_lowered c Hc) as [Hne _].
      apply N.eqb_neq in Hne. rewrite Hne.
      destruct (@refragment t [Js.lowerChar c] Ht) as (w & rest & E & Hj);
        [discriminate|].
      exists w, rest. now split. }
  rewrite E. f_equal. f_equal. destruct cas; simpl in Hc |- *.
  - assert (Js.lowerChar c = c) as ->; [|now rewrite Hj].
    unfold Js.lowerChar. assert (Js.isUpper c = false) as -> by char_props.
    reflexivity.
  - destruct (@upper_lowered c Hc) as [_ ->]. now rewrite Hj.
Qed.

(** X10. A name that is already normal for a style (ASCII letters and
    digits only, beginning with a letter of the style's case) is returned
    as it is, cut to its first 20 characters. *)
Theorem normalizeAssetName_keeps_normal (cas : NameCase) (name : jsstring) :
  Forall (fun a => isAlnum a = true) name ->
  (exists c t, name = c :: t /\ isInitial cas c = true) ->
  normalizeAssetName name cas = Returned (firstn 20 name).
Proof.
  intros Hall (c & t & -> & Hc). inversion Hall; subst.
  now apply normalizeAssetName_on_normal.
Qed.

Lemma normalizeAssetName_keeps_normal_witness :
  normalizeAssetName (Js.lit "bigRedDog2") camel
  = Returned (firstn 20 (Js.lit "bigRedDog2")).
Proof.
  apply (@normalizeAssetName_keeps_normal camel (Js.lit "bigRedDog2")).
  - repeat constructor.
  - exists 98%N, (Js.lit "igRedDog2"). split; reflexivity.
Defined.

(** X11. [normalizeAssetName] is idempotent: normalising its own result
    again, in the same style, changes nothing. *)
Theorem normalizeAssetName_idempotent (src : jsstring) (cas : NameCase) :
  (r <- normalizeAssetName src cas ;; normalizeAssetName r cas)
  = normalizeAssetName src cas.
Proof.
  destruct (normalizeAssetName_cases src cas)
    as [[_ E] | (c & t & E & Hc & Ht & Hlen)]; rewrite E; simpl bind.
  - now destruct cas.
  - rewrite (@normalizeAssetName_on_normal cas c t Hc Ht).
    now rewrite firstn_all2.
Qed.

(** ** More on the validators *)

Section MoreValidation.

Variables keywords typeKeywords : list jsstring.

Lemma validateBackdropName_none (name : jsstring) (stage : option Stage) :
  validateBackdropName keywords typeKeywords name stage = None
  <-> validateAssetName keywords typeKeywords name = None
      /\ forall st, stage = Some st -> ~ nameTaken backdrop_name (backdrops st) name.
Proof.
  unfold validateBackdropName.
  destruct (validateAssetName keywords typeKeywords name) as [err|].
  { split; [discriminate | intros [F _]; discriminate]. }
  destruct stage as [st|].
  2:{ split; [|reflexivity]. intros _. split; [reflexivity | discriminate]. }
  destruct (Js.truthy (Js.find _ (backdrops st))) eqn:Eb.
  { apply find_truthy_taken in Eb. split; [discriminate|].
    intros [_ H]. now specialize (H st eq_refl). }
  apply find_truthy_free in Eb.
  split; [|reflexivity]. intros _. split; [reflexivity|].
  intros q E. now injection E as <-.
Qed.

(** X12. [validateCostumeName] answers [null] exactly when
    [validateAssetName] does and the sprite is absent or has no costume of
    that name; [validateBackdropName] likewise with the stage and its
    backdrops. *)
Theorem validateCostumeName_validateBackdropName_null_iff
  (name : jsstring) (sprite : option Sprite) (stage : option Stage) :
  (validateCostumeName keywords typeKeywords name sprite = None
   <-> validateAssetName keywords typeKeywords name = None
       /\ (sprite = None
           \/ exists sp, sprite = Some sp
                /\ ~ nameTaken costume_name (costumes sp) name))
  /\ (validateBackdropName keywords typeKeywords name stage = None
      <-> validateAssetName keywords typeKeywords name = None
          /\ (stage = None
              \/ exists st, stage = Some st
                   /\ ~ nameTaken backdrop_name (backdrops st) name)).
Proof.
  split.
  - rewrite validateCostumeName_none. split; intros [Ha H]; (split; [exact Ha|]).
    + destruct sprite as [sp|]; [right | now left]. exists sp. split; auto.
    + intros sp ->. destruct H as [F | (q & E & H)]; [discriminate|].
      now injection E as <-.
  - rewrite validateBackdropName_none. split; intros [Ha H]; (split; [exact Ha|]).
    + destruct stage as [st|]; [right | now left]. exists st. split; auto.
    + intros st ->. destruct H as [F | (q & E & H)]; [discriminate|].
      now injection E as <-.
Qed.

(** X13. The error of [validateSpriteName]: an error of
    [validateAssetName] comes first, whatever the project; then a sprite of
    that name, reported as such even when a sound has the name too; then a
    sound of that name. *)
Theorem validateSpriteName_error_order
  (name : jsstring) (project : option Project) (p : Project) :
  (forall err, validateAssetName keywords typeKeywords name = Some err ->
     validateSpriteName keywords typeKeywords name project = Some err)
  /\ (validateAssetName keywords typeKeywords name = None ->
      nameTaken sprite_name (sprites p) name ->
      validateSpriteName keywords typeKeywords name (Some p)
      = Some (Msg.spriteExists name))
  /\ (validateAssetName keywords typeKeywords name = None ->
      ~ nameTaken sprite_name (sprites p) name ->
      nameTaken sound_name (sounds p) name ->
      validateSpriteName keywords typeKeywords name (Some p)
      = Some (Msg.soundExists name)).
Proof.
  unfold validateSpriteName. repeat apply conj.
  - intros err ->. reflexivity.
  - intros -> Hs. apply find_truthy_taken in Hs. now rewrite Hs.
  - intros -> Hs Ho. apply find_truthy_free in Hs. apply find_truthy_taken in Ho.
    now rewrite Hs, Ho.
Qed.

(** The errors of [validateCostumeName] and [validateBackdropName]:
    an error of [validateAssetName] comes first; a valid name that a
    costume of the sprite (a backdrop of the stage) carries is reported as
    existing. *)
Theorem validateCostumeName_validateBackdropName_errors
  (name : jsstring) (sprite : option Sprite) (stage : option Stage)
  (sp : Sprite) (st : Stage) :
  (forall err, validateAssetName keywords typeKeywords name = Some err ->
     validateCostumeName keywords typeKeywords name sprite = Some err
     /\ validateBackdropName keywords typeKeywords name stage = Some err)
  /\ (validateAssetName keywords typeKeywords name = None ->
      nameTaken costume_name (costumes sp) name ->
      validateCostumeName keywords typeKeywords name (Some sp)
      = Some (Msg.costumeExists name))
  /\ (validateAssetName keywords typeKeywords name = None ->
      nameTaken backdrop_name (backdrops st) name ->
      validateBackdropName keywords typeKeywords name (Some st)
      = Some (Msg.backdropExists name)).
Proof.
  unfold validateCostumeName, validateBackdropName. repeat apply conj.
  - intros err ->. split; reflexivity.
  - intros -> Hc. apply find_truthy_taken in Hc. now rewrite Hc.
  - intros -> Hb. apply find_truthy_taken in Hb. now rewrite Hb.
Qed.

End MoreValidation.

Lemma validateSpriteName_error_order_witness :
  validateSpriteName Demo.keywords Demo.typeKeywords (Js.lit "if")
    (Some Demo.oneFoo) = Some Msg.keywordConflict
  /\ validateSpriteName Demo.keywords Demo.typeKeywords (Js.lit "Foo")
       (Some (Demo.project ["Foo"%string] ["Foo"%string]))
     = Some (Msg.spriteExists (Js.lit "Foo"))
  /\ validateSpriteName Demo.keywords Demo.typeKeywords (Js.lit "Foo")
       (Some (Demo.project ["Bar"%string] ["Foo"%string]))
     = Some (Msg.soundExists (Js.lit "Foo")).
Proof.
  repeat apply conj.
  - destruct (validateSpriteName_error_order Demo.keywords Demo.typeKeywords
                (Js.lit "if") (Some Demo.oneFoo) Demo.oneFoo) as (H & _).
    apply H. reflexivity.
  - destruct (validateSpriteName_error_order Demo.keywords Demo.typeKeywords
                (Js.lit "Foo") None (Demo.project ["Foo"%string] ["Foo"%string]))
      as (_ & H & _).
    apply H; [reflexivity | apply find_truthy_taken; reflexivity].
  - destruct (validateSpriteName_error_order Demo.keywords Demo.typeKeywords
                (Js.lit "Foo") None (Demo.project ["Bar"%string] ["Foo"%string]))
      as (_ & _ & H).
    apply H; [reflexivity | apply find_truthy_free; reflexivity
             | apply find_truthy_taken; reflexivity].
Defined.

Lemma validateCostumeName_validateBackdropName_errors_witness :
  (validateCostumeName Demo.keywords Demo.typeKeywords (Js.lit "9lives")
     (Some Demo.walker) = Some Msg.invalid
   /\ validateBackdropName Demo.keywords Demo.typeKeywords (Js.lit "9lives")
        (Some Demo.oneBackdrop) = Some Msg.invalid)
  /\ validateCostumeName Demo.keywords Demo.typeKeywords (Js.lit "walk")
       (Some Demo.walker) = Some (Msg.costumeExists (Js.lit "walk"))
  /\ validateBackdropName Demo.keywords Demo.typeKeywords (Js.lit "backdrop")
       (Some Demo.oneBackdrop) = Some (Msg.backdropExists (Js.lit "backdrop")).
Proof.
  repeat apply conj.
  - destruct (validateCostumeName_validateBackdropName_errors
                Demo.keywords Demo.typeKeywords (Js.lit "9lives")
                (Some Demo.walker) (Some Demo.oneBackdrop)
                Demo.walker Demo.oneBackdrop) as (H & _).
    apply (H Msg.invalid). reflexivity.
  - destruct (validateCostumeName_validateBackdropName_errors
                Demo.keywords Demo.typeKeywords (Js.lit "9lives")
                (Some Demo.walker) (Some Demo.oneBackdrop)
                Demo.walker Demo.oneBackdrop) as (H & _).
    apply (H Msg.invalid). reflexivity.
  - destruct (validateCostumeName_validateBackdropName_errors
                Demo.keywords Demo.typeKeywords (Js.lit "walk") None None
                Demo.walker Demo.oneBackdrop) as (_ & H & _).
    apply H; [reflexivity | apply find_truthy_taken; reflexivity].
  - destruct (validateCostumeName_validateBackdropName_errors
                Demo.keywords Demo.typeKeywords (Js.lit "backdrop") None None
                Demo.walker Demo.oneBackdrop) as (_ & _ & H).
    apply H; [reflexivity | apply find_truthy_taken; reflexivity].
Defined.

(** ** More on the generators *)

Lemma resolved_first {A} (v : jsstring -> option A) (b fallback : jsstring) :
  v (orElse b fallback) = None ->
  (n <- Returned b ;;
   fst (getValidName (orElse n fallback) (pureCallback (fun c => isNull (v c))) tt))
  = Returned (orElse b fallback).
Proof.
  intros H. simpl. apply getValidName_pure_first. now apply isNull_true.
Qed.

Lemma resolved_shape {A} (v : jsstring -> option A) (cas : NameCase)
  (fallback base name : jsstring) :
  (n <- normalizeAssetName base cas ;;
   fst (getValidName (orElse n fallback) (pureCallback (fun c => isNull (v c))) tt))
  = Returned name ->
  generatedFrom cas fallback base name.
Proof.
  unfold generatedFrom.
  destruct (normalizeAssetName base cas) as [b|e]; simpl; [|discriminate].
  intros H. unfold getValidName in H.
  apply (@getValidName_from_is_candidate unit (orElse b fallback) _ 10000) in H;
    [|reflexivity].
  destruct H as (j & Hj & ->).
  destruct (@candidate_shape (orElse b fallback) j Hj) as (suffix & E & Hl & Hd & _).
  exists b, suffix. now repeat split.
Qed.

Lemma generatedFrom_length (cas : NameCase) (fallback base name : jsstring) :
  length fallback <= 20 -> generatedFrom cas fallback base name -> length name <= 25.
Proof.
  intros Hf (b & suffix & E & -> & _ & Hl). rewrite length_app.
  assert (length (orElse b fallback) <= 20); [|lia].
  unfold orElse. destruct (Js.nonEmpty b); [|exact Hf].
  destruct (normalizeAssetName_cases base cas)
    as [[_ E'] | (c & t & E' & _ & _ & Hlen)]; rewrite E' in E;
    injection E as <-; [simpl; lia | exact Hlen].
Qed.

Section MoreGenerators.

Variables keywords typeKeywords : list jsstring.

Lemma ensureValidSpriteName_valid (name r : jsstring) (project : option Project) :
  ensureValidSpriteName keywords typeKeywords name project = Returned r ->
  validateSpriteName keywords typeKeywords r project = None.
Proof.
  unfold ensureValidSpriteName.
  destruct (isNull (validateSpriteName keywords typeKeywords name project)) eqn:E.
  - intros H. injection H as <-. now apply isNull_true.
  - intros H. exact (resolved_name_valid _ _ _ H).
Qed.

Lemma ensureValidSoundName_valid (name r : jsstring) (project : option Project) :
  ensureValidSoundName keywords typeKeywords name project = Returned r ->
  validateSoundName keywords typeKeywords r project = None.
Proof.
  unfold ensureValidSoundName.
  destruct (isNull (validateSoundName keywords typeKeywords name project)) eqn:E.
  - intros H. injection H as <-. now apply isNull_true.
  - intros H. exact (resolved_name_valid _ _ _ H).
Qed.

Lemma ensureValidBackdropName_valid (name r : jsstring) (stage : option Stage) :
  ensureValidBackdropName keywords typeKeywords name stage = Returned r ->
  validateBackdropName keywords typeKeywords r stage = None.
Proof.
  unfold ensureValidBackdropName.
  destruct (isNull (validateBackdropName keywords typeKeywords name stage)) eqn:E.
  - intros H. injection H as <-. now apply isNull_true.
  - intros H. exact (resolved_name_valid _ _ _ H).
Qed.

(** X14. A name that an [ensureValid...Name] function returns passes the
    validator of its kind in the same scope, whether it is the given name
    or a generated one. *)
Theorem ensured_name_is_valid
  (project : option Project) (sprite : option Sprite) (stage : option Stage)
  (name r : jsstring) :
  (ensureValidSpriteName keywords typeKeywords name project = Returned r ->
   validateSpriteName keywords typeKeywords r project = None)
  /\ (ensureValidCostumeName keywords typeKeywords name sprite = Returned r ->
      validateCostumeName keywords typeKeywords r sprite = None)
  /\ (ensureValidSoundName keywords typeKeywords name project = Returned r ->
      validateSoundName keywords typeKeywords r project = None)
  /\ (ensureValidBackdropName keywords typeKeywords name stage = Returned r ->
      validateBackdropName keywords typeKeywords r stage = None).
Proof.
  split; [apply ensureValidSpriteName_valid|].
  split; [apply ensureValidCostumeName_valid|].
  split; [apply ensureValidSoundName_valid | apply ensureValidBackdropName_valid].
Qed.

(** X15. [ensureValidSpriteName], [ensureValidSoundName] and
    [ensureValidBackdropName] are idempotent in an unchanged scope (and a
    first call that throws makes the composition throw the same error). *)
Theorem ensureValid_sprite_sound_backdrop_idempotent
  (project : option Project) (stage : option Stage) (name : jsstring) :
  (r <- ensureValidSpriteName keywords typeKeywords name project ;;
   ensureValidSpriteName keywords typeKeywords r project)
  = ensureValidSpriteName keywords typeKeywords name project
  /\ (r <- ensureValidSoundName keywords typeKeywords name project ;;
      ensureValidSoundName keywords typeKeywords r project)
     = ensureValidSoundName keywords typeKeywords name project
  /\ (r <- ensureValidBackdropName keywords typeKeywords name stage ;;
      ensureValidBackdropName keywords typeKeywords r stage)
     = ensureValidBackdropName keywords typeKeywords name stage.
Proof.
  split; [|split].
  - destruct (ensureValidSpriteName keywords typeKeywords name project)
      as [r|e] eqn:E; simpl; [|reflexivity].
    apply ensureValidSpriteName_valid in E.
    unfold ensureValidSpriteName. now rewrite E.
  - destruct (ensureValidSoundName keywords typeKeywords name project)
      as [r|e] eqn:E; simpl; [|reflexivity].
    apply ensureValidSoundName_valid in E.
    unfold ensureValidSoundName. now rewrite E.
  - destruct (ensureValidBackdropName keywords typeKeywords name stage)
      as [r|e] eqn:E; simpl; [|reflexivity].
    apply ensureValidBackdropName_valid in E.
    unfold ensureValidBackdropName. now rewrite E.
Qed.

(** A name that the validator of its kind accepts comes back
    unchanged from [ensureValidCostumeName], [ensureValidSoundName] and
    [ensureValidBackdropName]. *)
Theorem ensureValid_costume_sound_backdrop_keep_valid
  (project : option Project) (sprite : option Sprite) (stage : option Stage)
  (name : jsstring) :
  (validateCostumeName keywords typeKeywords name sprite = None ->
   ensureValidCostumeName keywords typeKeywords name sprite = Returned name)
  /\ (validateSoundName keywords typeKeywords name project = None ->
      ensureValidSoundName keywords typeKeywords name project = Returned name)
  /\ (validateBackdropName keywords typeKeywords name stage = None ->
      ensureValidBackdropName keywords typeKeywords name stage = Returned name).
Proof.
  unfold ensureValidCostumeName, ensureValidSoundName, ensureValidBackdropName.
  repeat apply conj; intros ->; reflexivity.
Qed.

(** X16. When the normalised base (or the default of the kind, for an
    empty one) is valid in the scope, the generator returns it without a
    number. *)
Theorem generator_returns_valid_base
  (project : option Project) (sprite : option Sprite) (stage : option Stage)
  (base b : jsstring) :
  (normalizeAssetName base pascal = Returned b ->
   validateSpriteName keywords typeKeywords (orElse b (Js.lit "Sprite")) project = None ->
   getSpriteName keywords typeKeywords project base
   = Returned (orElse b (Js.lit "Sprite")))
  /\ (normalizeAssetName base camel = Returned b ->
      validateCostumeName keywords typeKeywords (orElse b (Js.lit "costume")) sprite
      = None ->
      getCostumeName keywords typeKeywords sprite base
      = Returned (orElse b (Js.lit "costume")))
  /\ (normalizeAssetName base camel = Returned b ->
      validateSoundName keywords typeKeywords (orElse b (Js.lit "sound")) project
      = None ->
      getSoundName keywords typeKeywords project base
      = Returned (orElse b (Js.lit "sound")))
  /\ (normalizeAssetName base camel = Returned b ->
      validateBackdropName keywords typeKeywords (orElse b (Js.lit "backdrop")) stage
      = None ->
      getBackdropName keywords typeKeywords stage base
      = Returned (orElse b (Js.lit "backdrop"))).
Proof.
  unfold getSpriteName, getCostumeName, getSoundName, getBackdropName.
  repeat apply conj; intros -> H; exact (resolved_first _ _ _ H).
Qed.

(** X17. A generated name is the normalised base (or the default of the
    kind) followed by at most five digits, and is at most 25 characters
    long. *)
Theorem generated_name_shape
  (project : option Project) (sprite : option Sprite) (stage : option Stage)
  (base name : jsstring) :
  (getSpriteName keywords typeKeywords project base = Returned name ->
   generatedFrom pascal (Js.lit "Sprite") base name /\ length name <= 25)
  /\ (getCostumeName keywords typeKeywords sprite base = Returned name ->
      generatedFrom camel (Js.lit "costume") base name /\ length name <= 25)
  /\ (getSoundName keywords typeKeywords project base = Returned name ->
      generatedFrom camel (Js.lit "sound") base name /\ length name <= 25)
  /\ (getBackdropName keywords typeKeywords stage base = Returned name ->
      generatedFrom camel (Js.lit "backdrop") base name /\ length name <= 25).
Proof.
  repeat apply conj; intros H; apply resolved_shape in H;
    (split; [exact H|]); (eapply generatedFrom_length; [|exact H]); simpl; lia.
Qed.

(** X18. A generated sprite or sound name is new in both lists of the
    project: no sprite and no sound carries it. *)
Theorem generated_project_name_is_fresh (p : Project) (base name : jsstring) :
  getSpriteName keywords typeKeywords (Some p) base = Returned name
  \/ getSoundName keywords typeKeywords (Some p) base = Returned name ->
  ~ nameTaken sprite_name (sprites p) name
  /\ ~ nameTaken sound_name (sounds p) name
  /\ ~ In name typeKeywords /\ ~ In name keywords.
Proof.
  intros H.
  assert (validateSpriteName keywords typeKeywords name (Some p) = None) as Hv.
  { destruct H as [H | H]; exact (resolved_name_valid _ _ _ H). }
  apply validateSpriteName_none in Hv. destruct Hv as [Ha Hp].
  destruct (Hp p eq_refl) as [Hs Ho]. apply validateAssetName_null in Ha.
  tauto.
Qed.

End MoreGenerators.

(** ** The loop error needs more than 10000 names *)

Lemma NoDup_map_injective {A B} (f : A -> B) (l : list A) :
  (forall x y, f x = f y -> x = y) -> NoDup l -> NoDup (map f l).
Proof.
  intros Hinj H. induction H as [|x l Hx _ IH]; simpl; constructor; [|exact IH].
  rewrite in_map_iff. intros (y & E & Hy). apply Hinj in E. now subst.
Qed.

Lemma nameTaken_In {A} (nameOf : A -> jsstring) (xs : list A) (name : jsstring) :
  nameTaken nameOf xs name <-> In name (map nameOf xs).
Proof.
  unfold nameTaken. rewrite in_map_iff. split; intros (x & H1 & H2); now exists x.
Qed.

(** With fewer names in use than candidates, one candidate is accepted. *)
Lemma resolver_finds {A} (v : jsstring -> option A) (b : jsstring)
  (taken : list jsstring) :
  (forall i, (1 <= i <= 10001)%N ->
     v (candidate b i) <> None -> In (candidate b i) taken) ->
  (N.of_nat (length taken) <= 10000)%N ->
  exists name,
    fst (getValidName b (pureCallback (fun c => isNull (v c))) tt) = Returned name.
Proof.
  intros Hrej Hlen.
  destruct (fst (getValidName b (pureCallback (fun c => isNull (v c))) tt))
    as [name|e] eqn:E; [now exists name|].
  exfalso. unfold getValidName in E.
  apply (getValidName_from_pure_thrown b (fun c => isNull (v c)) 10000) in E;
    [|reflexivity].
  destruct E as [_ Hall].
  assert (incl (map (candidate b) (attemptsFrom 1 10001)) taken) as Hincl.
  { intros name Hn. apply in_map_iff in Hn. destruct Hn as (i & <- & Hi).
    apply attemptsFrom_In in Hi. change (N.of_nat 10001) with 10001%N in Hi.
    apply Hrej; [lia|]. apply isNull_false. apply Hall. lia. }
  apply NoDup_incl_length in Hincl.
  - rewrite length_map, attemptsFrom_length in Hincl.
    assert (N.of_nat 10001 <= N.of_nat (length taken))%N as Hle by lia.
    change (N.of_nat 10001) with 10001%N in Hle. lia.
  - apply NoDup_map_injective; [apply candidate_inj | apply attemptsFrom_NoDup].
Qed.

Lemma normalizeAssetName_returns (src : jsstring) (cas : NameCase) :
  exists b, normalizeAssetName src cas = Returned b.
Proof. rewrite normalizeAssetName_closed. eauto. Qed.

Lemma goodBase_orElse (cas : NameCase) (fallback base b : jsstring) :
  normalizeAssetName base cas = Returned b -> goodBase fallback ->
  goodBase (orElse b fallback).
Proof.
  intros E Hf. unfold orElse.
  destruct (normalizeAssetName_cases base cas)
    as [[_ E'] | (c & t & E' & Hc & Ht & Hlen)]; rewrite E' in E;
    injection E as <-; simpl; [exact Hf|].
  now exists cas, c, t.
Qed.

Section SmallScopes.

Variables keywords typeKeywords : list jsstring.

(** A candidate made from a good base can only fail [validateAssetName]
    as a reserved word. *)
Lemma candidate_asset_error (b : jsstring) (i : N) :
  goodBase b -> (1 <= i <= 10001)%N ->
  validateAssetName keywords typeKeywords (candidate b i) <> None ->
  In (candidate b i) (typeKeywords ++ keywords).
Proof.
  intros (cas & c & t & -> & Hc & Ht & Hlen) Hi Hv.
  destruct (@candidate_shape (c :: t) i Hi) as (suffix & E & Hl & Hd & _).
  rewrite E in *. apply in_or_app.
  destruct (Js.includes typeKeywords ((c :: t) ++ suffix)) eqn:Et;
    [left; now apply js_includes_In|].
  destruct (Js.includes keywords ((c :: t) ++ suffix)) eqn:Ek;
    [right; now apply js_includes_In|].
  exfalso. apply Hv. apply validateAssetName_null.
  apply js_includes_false in Et, Ek. repeat split; trivial.
  - discriminate.
  - rewrite length_app. lia.
  - simpl. rewrite (initial_nameStart cas c Hc). simpl.
    rewrite forallb_app. apply andb_true_iff. split; apply forallb_forall.
    + rewrite Forall_forall in Ht. intros a Ha. apply alnum_nameChar. now apply Ht.
    + rewrite Forall_forall in Hd. intros a Ha. apply digit_nameChar. now apply Hd.
Qed.

Lemma sprite_candidate_taken (project : option Project) (b : jsstring) (i : N) :
  goodBase b -> (1 <= i <= 10001)%N ->
  validateSpriteName keywords typeKeywords (candidate b i) project <> None ->
  In (candidate b i) (List.concat [typeKeywords; keywords; projectNames project]).
Proof.
  intros Hb Hi Hv. simpl. rewrite app_nil_r, app_assoc. apply in_or_app.
  destruct (validateAssetName keywords typeKeywords (candidate b i)) as [err|] eqn:Ea.
  { left. apply candidate_asset_error; trivial. congruence. }
  right. destruct project as [p|].
  2:{ exfalso. apply Hv. apply validateSpriteName_none. split; [exact Ea|].
      discriminate. }
  simpl. apply in_or_app. rewrite <- !nameTaken_In.
  destruct (Js.truthy (Js.find (fun s => Js.eqb (sprite_name s) (candidate b i))
                         (sprites p))) eqn:Es.
  { left. now apply find_truthy_taken. }
  destruct (Js.truthy (Js.find (fun s => Js.eqb (sound_name s) (candidate b i))
                         (sounds p))) eqn:Eo.
  { right. now apply find_truthy_taken. }
  exfalso. apply Hv. apply validateSpriteName_none. split; [exact Ea|].
  intros q E. injection E as <-.
  split; now apply find_truthy_free.
Qed.

Lemma costume_candidate_taken (sprite : option Sprite) (b : jsstring) (i : N) :
  goodBase b -> (1 <= i <= 10001)%N ->
  validateCostumeName keywords typeKeywords (candidate b i) sprite <> None ->
  In (candidate b i) (List.concat [typeKeywords; keywords; costumeNames sprite]).
Proof.
  intros Hb Hi Hv. simpl. rewrite app_nil_r, app_assoc. apply in_or_app.
  destruct (validateAssetName keywords typeKeywords (candidate b i)) as [err|] eqn:Ea.
  { left. apply candidate_asset_error; trivial. congruence. }
  right. destruct sprite as [sp|].
  2:{ exfalso. apply Hv. apply validateCostumeName_none. split; [exact Ea|].
      discriminate. }
  simpl. rewrite <- nameTaken_In.
  destruct (Js.truthy (Js.find (fun c => Js.eqb (costume_name c) (candidate b i))
                         (costumes sp))) eqn:Ec.
  { now apply find_truthy_taken. }
  exfalso. apply Hv. apply validateCostumeName_none. split; [exact Ea|].
  intros q E. injection E as <-. now apply find_truthy_free.
Qed.

Lemma backdrop_candidate_taken (stage : option Stage) (b : jsstring) (i : N) :
  goodBase b -> (1 <= i <= 10001)%N ->
  validateBackdropName keywords typeKeywords (candidate b i) stage <> None ->
  In (candidate b i) (List.concat [typeKeywords; keywords; backdropNames stage]).
Proof.
  intros Hb Hi Hv. simpl. rewrite app_nil_r, app_assoc. apply in_or_app.
  destruct (validateAssetName keywords typeKeywords (candidate b i)) as [err|] eqn:Ea.
  { left. apply candidate_asset_error; trivial. congruence. }
  right. destruct stage as [st|].
  2:{ exfalso. apply Hv. apply validateBackdropName_none. split; [exact Ea|].
      discriminate. }
  simpl. rewrite <- nameTaken_In.
  destruct (Js.truthy (Js.find (fun c => Js.eqb (backdrop_name c) (candidate b i))
                         (backdrops st))) eqn:Ec.
  { now apply find_truthy_taken. }
  exfalso. apply Hv. apply validateBackdropName_none. split; [exact Ea|].
  intros q E. injection E as <-. now apply find_truthy_free.
Qed.

Lemma goodBase_Sprite : goodBase (Js.lit "Sprite").
Proof.
  exists pascal, 83%N, (Js.lit "prite"). repeat split; [repeat constructor | simpl; lia].
Qed.

Lemma goodBase_costume : goodBase (Js.lit "costume").
Proof.
  exists camel, 99%N, (Js.lit "ostume"). repeat split; [repeat constructor | simpl; lia].
Qed.

Lemma goodBase_sound : goodBase (Js.lit "sound").
Proof.
  exists camel, 115%N, (Js.lit "ound"). repeat split; [repeat constructor | simpl; lia].
Qed.

Lemma goodBase_backdrop : goodBase (Js.lit "backdrop").
Proof.
  exists camel, 98%N, (Js.lit "ackdrop"). repeat split; [repeat constructor | simpl; lia].
Qed.

(** X19. A generator returns a name, and does not throw, whenever the
    reserved words and the names in use in the scope are at most 10000 in
    all: the loop error needs more than 10000 names. *)
Theorem generators_return_in_small_scopes
  (project : option Project) (sprite : option Sprite) (stage : option Stage)
  (base : jsstring) :
  ((namesInUse [typeKeywords; keywords; projectNames project] <= 10000)%N ->
   (exists name, getSpriteName keywords typeKeywords project base = Returned name)
   /\ (exists name, getSoundName keywords typeKeywords project base = Returned name))
  /\ ((namesInUse [typeKeywords; keywords; costumeNames sprite] <= 10000)%N ->
      exists name, getCostumeName keywords typeKeywords sprite base = Returned name)
  /\ ((namesInUse [typeKeywords; keywords; backdropNames stage] <= 10000)%N ->
      exists name, getBackdropName keywords typeKeywords stage base = Returned name).
Proof.
  unfold namesInUse, getSpriteName, getSoundName, getCostumeName, getBackdropName.
  repeat apply conj; intros Hsize; try split.
  - destruct (normalizeAssetName_returns base pascal) as [b E]. rewrite E. simpl bind.
    apply resolver_finds with (taken := List.concat [typeKeywords; keywords; projectNames project]);
      [|exact Hsize].
    intros i Hi. apply sprite_candidate_taken; [|exact Hi].
    exact (@goodBase_orElse _ _ _ _ E goodBase_Sprite).
  - destruct (normalizeAssetName_returns base camel) as [b E]. rewrite E. simpl bind.
    apply resolver_finds with (taken := List.concat [typeKeywords; keywords; projectNames project]);
      [|exact Hsize].
    intros i Hi. apply sprite_candidate_taken; [|exact Hi].
    exact (@goodBase_orElse _ _ _ _ E goodBase_sound).
  - destruct (normalizeAssetName_returns base camel) as [b E]. rewrite E. simpl bind.
    apply resolver_finds with (taken := List.concat [typeKeywords; keywords; costumeNames sprite]);
      [|exact Hsize].
    intros i Hi. apply costume_candidate_taken; [|exact Hi].
    exact (@goodBase_orElse _ _ _ _ E goodBase_costume).
  - destruct (normalizeAssetName_returns base camel) as [b E]. rewrite E. simpl bind.
    apply resolver_finds with (taken := List.concat [typeKeywords; keywords; backdropNames stage]);
      [|exact Hsize].
    intros i Hi. apply backdrop_candidate_taken; [|exact Hi].
    exact (@goodBase_orElse _ _ _ _ E goodBase_backdrop).
Qed.

End SmallScopes.

(** ** The properties above on the sample data *)

Lemma ensured_name_is_valid_witness :
  validateSpriteName Demo.keywords Demo.typeKeywords (Js.lit "Foo2")
    (Some Demo.oneFoo) = None
  /\ validateCostumeName Demo.keywords Demo.typeKeywords (Js.lit "walk2")
       (Some Demo.walker) = None
  /\ validateSoundName Demo.keywords Demo.typeKeywords (Js.lit "foo")
       (Some Demo.oneFoo) = None
  /\ validateBackdropName Demo.keywords Demo.typeKeywords (Js.lit "myBackdrop")
       (Some Demo.oneBackdrop) = None.
Proof.
  repeat apply conj.
  - destruct (ensured_name_is_valid Demo.keywords Demo.typeKeywords
                (Some Demo.oneFoo) None None (Js.lit "Foo") (Js.lit "Foo2"))
      as (H & _).
    apply H. vm_compute. reflexivity.
  - destruct (ensured_name_is_valid Demo.keywords Demo.typeKeywords
                None (Some Demo.walker) None (Js.lit "walk") (Js.lit "walk2"))
      as (_ & H & _).
    apply H. vm_compute. reflexivity.
  - destruct (ensured_name_is_valid Demo.keywords Demo.typeKeywords
                (Some Demo.oneFoo) None None (Js.lit "Foo") (Js.lit "foo"))
      as (_ & _ & H & _).
    apply H. vm_compute. reflexivity.
  - destruct (ensured_name_is_valid Demo.keywords Demo.typeKeywords
                None None (Some Demo.oneBackdrop) (Js.lit "my backdrop")
                (Js.lit "myBackdrop")) as (_ & _ & _ & H).
    apply H. vm_compute. reflexivity.
Defined.

Lemma ensureValid_costume_sound_backdrop_keep_valid_witness :
  ensureValidCostumeName Demo.keywords Demo.typeKeywords (Js.lit "run")
    (Some Demo.walker) = Returned (Js.lit "run")
  /\ ensureValidSoundName Demo.keywords Demo.typeKeywords (Js.lit "boom")
       (Some Demo.oneFoo) = Returned (Js.lit "boom")
  /\ ensureValidBackdropName Demo.keywords Demo.typeKeywords (Js.lit "sky")
       (Some Demo.oneBackdrop) = Returned (Js.lit "sky").
Proof.
  repeat apply conj.
  - destruct (ensureValid_costume_sound_backdrop_keep_valid
                Demo.keywords Demo.typeKeywords None (Some Demo.walker) None
                (Js.lit "run")) as (H & _).
    apply H. vm_compute. reflexivity.
  - destruct (ensureValid_costume_sound_backdrop_keep_valid
                Demo.keywords Demo.typeKeywords (Some Demo.oneFoo) None None
                (Js.lit "boom")) as (_ & H & _).
    apply H. vm_compute. reflexivity.
  - destruct (ensureValid_costume_sound_backdrop_keep_valid
                Demo.keywords Demo.typeKeywords None None (Some Demo.oneBackdrop)
                (Js.lit "sky")) as (_ & _ & H).
    apply H. vm_compute. reflexivity.
Defined.

Lemma generator_returns_valid_base_witness :
  getSpriteName Demo.keywords Demo.typeKeywords (Some Demo.oneFoo)
    (Js.lit "hello world") = Returned (Js.lit "HelloWorld")
  /\ getCostumeName Demo.keywords Demo.typeKeywords (Some Demo.walker)
       (Js.lit "hello world") = Returned (Js.lit "helloWorld")
  /\ getSoundName Demo.keywords Demo.typeKeywords (Some Demo.oneFoo)
       (Js.lit "42") = Returned (Js.lit "sound")
  /\ getBackdropName Demo.keywords Demo.typeKeywords None
       (Js.lit "") = Returned (Js.lit "backdrop").
Proof.
  repeat apply conj.
  - destruct (generator_returns_valid_base Demo.keywords Demo.typeKeywords
                (Some Demo.oneFoo) None None (Js.lit "hello world")
                (Js.lit "HelloWorld")) as (H & _).
    apply H; vm_compute; reflexivity.
  - destruct (generator_returns_valid_base Demo.keywords Demo.typeKeywords
                None (Some Demo.walker) None (Js.lit "hello world")
                (Js.lit "helloWorld")) as (_ & H & _).
    apply H; vm_compute; reflexivity.
  - destruct (generator_returns_valid_base Demo.keywords Demo.typeKeywords
                (Some Demo.oneFoo) None None (Js.lit "42") (Js.lit ""))
      as (_ & _ & H & _).
    apply H; vm_compute; reflexivity.
  - destruct (generator_returns_valid_base Demo.keywords Demo.typeKeywords
                None None None (Js.lit "") (Js.lit "")) as (_ & _ & _ & H).
    apply H; vm_compute; reflexivity.
Defined.

Lemma generated_name_shape_witness :
  (generatedFrom pascal (Js.lit "Sprite") (Js.lit "Foo") (Js.lit "Foo2")
   /\ length (Js.lit "Foo2") <= 25)
  /\ (generatedFrom camel (Js.lit "costume") (Js.lit "Walk") (Js.lit "walk2")
      /\ length (Js.lit "walk2") <= 25)
  /\ (generatedFrom camel (Js.lit "sound") (Js.lit "") (Js.lit "sound")
      /\ length (Js.lit "sound") <= 25)
  /\ (generatedFrom camel (Js.lit "backdrop") (Js.lit "") (Js.lit "backdrop2")
      /\ length (Js.lit "backdrop2") <= 25).
Proof.
  repeat apply conj.
  1,2: destruct (generated_name_shape Demo.keywords Demo.typeKeywords
                   (Some Demo.oneFoo) None None (Js.lit "Foo") (Js.lit "Foo2"))
         as (H & _); apply H; vm_compute; reflexivity.
  1,2: destruct (generated_name_shape Demo.keywords Demo.typeKeywords
                   None (Some Demo.walker) None (Js.lit "Walk") (Js.lit "walk2"))
         as (_ & H & _); apply H; vm_compute; reflexivity.
  1,2: destruct (generated_name_shape Demo.keywords Demo.typeKeywords
                   (Some Demo.oneFoo) None None (Js.lit "") (Js.lit "sound"))
         as (_ & _ & H & _); apply H; vm_compute; reflexivity.
  1,2: destruct (generated_name_shape Demo.keywords Demo.typeKeywords
                   None None (Some Demo.oneBackdrop) (Js.lit "") (Js.lit "backdrop2"))
         as (_ & _ & _ & H); apply H; vm_compute; reflexivity.
Defined.

Lemma generated_project_name_is_fresh_witness :
  ~ nameTaken sprite_name (sprites Demo.oneFoo) (Js.lit "Foo2")
  /\ ~ nameTaken sound_name (sounds Demo.oneFoo) (Js.lit "Foo2")
  /\ ~ In (Js.lit "Foo2") Demo.typeKeywords /\ ~ In (Js.lit "Foo2") Demo.keywords.
Proof.
  apply (@generated_project_name_is_fresh Demo.keywords Demo.typeKeywords
           Demo.oneFoo (Js.lit "Foo") (Js.lit "Foo2")).
  left. vm_compute. reflexivity.
Defined.

Lemma generators_return_in_small_scopes_witness :
  ((exists name, getSpriteName Demo.keywords Demo.typeKeywords (Some Demo.twoFoos)
                   (Js.lit "Foo") = Returned name)
   /\ (exists name, getSoundName Demo.keywords Demo.typeKeywords (Some Demo.twoFoos)
                      (Js.lit "Foo") = Returned name))
  /\ (exists name, getCostumeName Demo.keywords Demo.typeKeywords (Some Demo.walker)
                     (Js.lit "walk") = Returned name)
  /\ (exists name, getBackdropName Demo.keywords Demo.typeKeywords
                     (Some Demo.oneBackdrop) (Js.lit "") = Returned name).
Proof.
  destruct (generators_return_in_small_scopes Demo.keywords Demo.typeKeywords
              (Some Demo.twoFoos) (Some Demo.walker) (Some Demo.oneBackdrop)
              (Js.lit "Foo")) as (Hp & _).
  destruct (generators_return_in_small_scopes Demo.keywords Demo.typeKeywords
              None (Some Demo.walker) None (Js.lit "walk")) as (_ & Hc & _).
  destruct (generators_return_in_small_scopes Demo.keywords Demo.typeKeywords
              None None (Some Demo.oneBackdrop) (Js.lit "")) as (_ & _ & Hb).
  split; [|split].
  - apply Hp. vm_compute. discriminate.
  - apply Hc. vm_compute. discriminate.
  - apply Hb. vm_compute. discriminate.
Defined.

(** ** The alphabet of generated names *)

Lemma digit_alnum (c : Js.char) : Js.isDigit c = true -> isAlnum c = true.
Proof. intros H. char_props. Qed.

Lemma generatedFrom_alphabet (cas : NameCase) (fallback base name : jsstring) :
  (exists c t, fallback = c :: t /\ isInitial cas c = true
     /\ Forall (fun a => isAlnum a = true) t) ->
  generatedFrom cas fallback base name ->
  exists c t, name = c :: t /\ isInitial cas c = true
    /\ Forall (fun a => isAlnum a = true) t.
Proof.
  intros (fc & ft & -> & Hfc & Hft) (b & suffix & E & -> & Hd & _).
  assert (Forall (fun a => isAlnum a = true) suffix) as Hs.
  { eapply Forall_impl; [|exact Hd]. intros a. apply digit_alnum. }
  destruct (normalizeAssetName_cases base cas)
    as [[_ E'] | (c & t & E' & Hc & Ht & _)]; rewrite E' in E;
    injection E as <-; unfold orElse; simpl.
  - exists fc, (ft ++ suffix). repeat split; trivial. apply Forall_app. now split.
  - exists c, (t ++ suffix). repeat split; trivial. apply Forall_app. now split.
Qed.

(** X20. A generated name has only ASCII letters and digits and begins
    with a letter: an upper-case one for a sprite, a lower-case one for a
    costume, a sound or a backdrop. *)
Theorem generated_name_alphabet (keywords typeKeywords : list jsstring)
  (project : option Project) (sprite : option Sprite) (stage : option Stage)
  (base name : jsstring) :
  (getSpriteName keywords typeKeywords project base = Returned name ->
   exists c t, name = c :: t /\ Js.isUpper c = true
     /\ Forall (fun a => isAlnum a = true) t)
  /\ (getCostumeName keywords typeKeywords sprite base = Returned name
      \/ getSoundName keywords typeKeywords project base = Returned name
      \/ getBackdropName keywords typeKeywords stage base = Returned name ->
      exists c t, name = c :: t /\ Js.isLower c = true
        /\ Forall (fun a => isAlnum a = true) t).
Proof.
  split.
  - intros H. apply resolved_shape in H.
    apply (@generatedFrom_alphabet pascal) in H; [exact H|].
    exists 83%N, (Js.lit "prite"). repeat split. repeat constructor.
  - intros [H | [H | H]]; apply resolved_shape in H;
      apply (@generatedFrom_alphabet camel) in H; try exact H.
    + exists 99%N, (Js.lit "ostume"). repeat split. repeat constructor.
    + exists 115%N, (Js.lit "ound"). repeat split. repeat constructor.
    + exists 98%N, (Js.lit "ackdrop"). repeat split. repeat constructor.
Qed.

Lemma generated_name_alphabet_witness :
  (exists c t, Js.lit "Foo2" = c :: t /\ Js.isUpper c = true
     /\ Forall (fun a => isAlnum a = true) t)
  /\ (exists c t, Js.lit "walk2" = c :: t /\ Js.isLower c = true
        /\ Forall (fun a => isAlnum a = true) t).
Proof.
  split.
  - destruct (generated_name_alphabet Demo.keywords Demo.typeKeywords
                (Some Demo.oneFoo) None None (Js.lit "Foo") (Js.lit "Foo2"))
      as (H & _).
    apply H. vm_compute. reflexivity.
  - destruct (generated_name_alphabet Demo.keywords Demo.typeKeywords
                None (Some Demo.walker) None (Js.lit "Walk") (Js.lit "walk2"))
      as (_ & H).
    apply H. left. vm_compute. reflexivity.
Defined.
